(** * File Eraser: a shallow embedding of [main.py] and its properties

    The development models the core pieces of the tool,

    - [get_all_files]  (the target resolver),
    - [erase_file]     (the four-pass erase engine),
    - [EraseWorker.run] (the batch coordinator),
    - [load_config] and [save_config] (the configuration file),

    as computations in a small state-and-exception monad over an explicit
    [world]: a file-system tree, the table of Python file objects, the
    outcome of the upcoming system calls, the random source, the Qt signals
    emitted so far, the log and the worker's [is_running] flag. *)

From Stdlib Require Import ZArith List Bool Lia.
From Stdlib Require Import Strings.Byte Strings.Ascii.
From Stdlib Require Import Floats.SpecFloat.
From stdpp Require Import base list strings pretty.

Local Set Warnings "-register-all".
Local Open Scope Z_scope.

(** ** Bytes and Python sequence operations *)

Abbreviation bytes := (list byte).

(** [s.encode()] / a [b"..."] literal. *)
Definition encode (s : string) : bytes := String.list_byte_of_string s.

(** [b * n] for a bytes object and a Python int: empty when [n <= 0]. *)
Definition bytes_mul (b : bytes) (n : Z) : bytes :=
  concat (replicate (Z.to_nat n) b).

(** [l[:n]] for a Python int [n]: a negative bound counts from the end. *)
Definition slice_to {A} (l : list A) (n : Z) : list A :=
  if 0 <=? n then take (Z.to_nat n) l
  else take (length l - Z.to_nat (- n))%nat l.

(** ** Python floats (IEEE 754 binary64) *)

Module Float.

Definition prec : Z := 53.
Definition emax : Z := 1024.

(** The literal [0.9]: the binary64 number nearest to nine tenths. *)
Definition lit_0_9 : spec_float := S754_finite false 8106479329266893 (-53).

(** [float(n)] as done implicitly by [int * float]: correctly rounded. *)
Definition of_int (n : Z) : spec_float := binary_normalize prec emax n 0 false.

Definition mul : spec_float -> spec_float -> spec_float := SFmul prec emax.

(** [int(x)]: truncation toward zero; [None] for infinities and NaN. *)
Definition to_int (x : spec_float) : option Z :=
  match x with
  | S754_zero _ => Some 0
  | S754_finite s m e =>
      let a := if 0 <=? e then Z.pos m * 2 ^ e else Z.pos m / 2 ^ (- e) in
      Some (if s then - a else a)
  | S754_infinity _ | S754_nan => None
  end.

End Float.

(** ** The file system *)

(** A [pathlib.Path] is modelled by its sequence of parts below the root. *)
Definition path := list string.

(** [file_path.name] *)
Definition name (p : path) : string := List.last p "".

(** [str(file_path)] *)
Fixpoint path_str (p : path) : string :=
  match p with
  | [] => "/"
  | c :: p' => "/" +:+ c +:+ (match p' with [] => "" | _ => path_str p' end)
  end.

(** The tree of directories and regular files. Links are not represented: a
    file has one name in the tree, and a file reached under several names is
    a path that occurs several times. *)
Inductive node :=
| File (data : bytes)
| Dir (entries : list (string * node)).

(** First entry of a directory listing carrying the given name. *)
Fixpoint assoc (c : string) (es : list (string * node)) : option node :=
  match es with
  | [] => None
  | (c', n) :: es' => if String.eqb c c' then Some n else assoc c es'
  end.

(** Replace the first entry named [c]. *)
Fixpoint replace_entry (c : string) (n : node) (es : list (string * node))
  : list (string * node) :=
  match es with
  | [] => []
  | (c', n') :: es' =>
      if String.eqb c c' then (c', n) :: es' else (c', n') :: replace_entry c n es'
  end.

Fixpoint lookup_node (p : path) (n : node) : option node :=
  match p with
  | [] => Some n
  | c :: p' =>
      match n with
      | File _ => None
      | Dir es => match assoc c es with
                  | Some ch => lookup_node p' ch
                  | None => None
                  end
      end
  end.

(** Store [data] as the content of the regular file at [p], creating the file
    when only its parent directory exists; [None] when that is impossible. *)
Fixpoint set_file (p : path) (data : bytes) (n : node) : option node :=
  match p with
  | [] => match n with File _ => Some (File data) | Dir _ => None end
  | c :: p' =>
      match n with
      | File _ => None
      | Dir es =>
          match assoc c es with
          | Some ch =>
              match set_file p' data ch with
              | Some ch' => Some (Dir (replace_entry c ch' es))
              | None => None
              end
          | None =>
              match p' with
              | [] => Some (Dir (es ++ [(c, File data)]))
              | _ => None
              end
          end
      end
  end.

(** Whether [p] names a regular file of the tree. *)
Definition file_at (r : node) (p : path) : bool :=
  match lookup_node p r with
  | Some (File _) => true
  | _ => false
  end.

(** [path.rglob('*')]: every directory of the subtree is visited parent first,
    and each visit yields the children of that directory. *)
Fixpoint rglob_star (here : path) (n : node) : list path :=
  match n with
  | File _ => []
  | Dir es =>
      map (fun ce => here ++ [fst ce]) es ++
      (fix sub (l : list (string * node)) : list path :=
         match l with
         | [] => []
         | (c, ch) :: l' => rglob_star (here ++ [c]) ch ++ sub l'
         end) es
  end.

(** ** The world *)

Inductive level := INFO | WARNING | ERROR.

(** Qt signals of [EraseWorker]. *)
Inductive event :=
| Progress (msg : string)
| FileProgress (current total : nat)
| Finished (success_count fail_count : nat).

Inductive mode := RB | WB.

(** A Python file object, as far as the code observes it. *)
Record file_object := FileObject {
  fo_path : path;
  fo_mode : mode;
  closed : bool
}.

Record world := World {
  root : node;                    (* the file-system tree *)
  objects : list file_object;     (* file objects, addressed by position *)
  faults : list bool;             (* upcoming system calls: [true] fails *)
  rand : nat -> nat;              (* the random source ... *)
  rand_pos : nat;                 (* ... and how much of it was consumed *)
  events : list event;            (* signals emitted so far *)
  log : list (level * string);    (* records handed to [logger] *)
  is_running : bool               (* [EraseWorker.is_running] *)
}.

Definition set_root (r : node) (w : world) : world :=
  World r (objects w) (faults w) (rand w) (rand_pos w) (events w) (log w) (is_running w).
Definition set_objects (o : list file_object) (w : world) : world :=
  World (root w) o (faults w) (rand w) (rand_pos w) (events w) (log w) (is_running w).
Definition set_faults (f : list bool) (w : world) : world :=
  World (root w) (objects w) f (rand w) (rand_pos w) (events w) (log w) (is_running w).
Definition set_rand_pos (n : nat) (w : world) : world :=
  World (root w) (objects w) (faults w) (rand w) n (events w) (log w) (is_running w).
Definition set_events (e : list event) (w : world) : world :=
  World (root w) (objects w) (faults w) (rand w) (rand_pos w) e (log w) (is_running w).
Definition set_log (l : list (level * string)) (w : world) : world :=
  World (root w) (objects w) (faults w) (rand w) (rand_pos w) (events w) l (is_running w).
Definition set_is_running (b : bool) (w : world) : world :=
  World (root w) (objects w) (faults w) (rand w) (rand_pos w) (events w) (log w) b.

(** ** Exceptions and the monad *)

Inductive exn :=
| FileNotFoundError (filename : string)
| IsADirectoryError (filename : string)
| OSError
| UnsupportedOperation (msg : string)
| ValueError (msg : string)
| OverflowError (msg : string)
| KeyboardInterrupt.

(** [isinstance(e, Exception)]: what [except Exception] catches. *)
Definition is_Exception (e : exn) : bool :=
  match e with
  | KeyboardInterrupt => false
  | _ => true
  end.

(** [str(e)], as CPython words it on a POSIX system. *)
Definition exn_str (e : exn) : string :=
  match e with
  | FileNotFoundError f => "[Errno 2] No such file or directory: '" +:+ f +:+ "'"
  | IsADirectoryError f => "[Errno 21] Is a directory: '" +:+ f +:+ "'"
  | OSError => "[Errno 5] Input/output error"
  | UnsupportedOperation msg => msg
  | ValueError msg => msg
  | OverflowError msg => msg
  | KeyboardInterrupt => ""
  end.

Inductive result (A : Type) :=
| Ret (a : A)
| Raise (e : exn).
Arguments Ret {A} a.
Arguments Raise {A} e.

Definition M (A : Type) : Type := world -> result A * world.

Definition ret {A} (a : A) : M A := fun w => (Ret a, w).
Definition raise {A} (e : exn) : M A := fun w => (Raise e, w).
Definition bind {A B} (m : M A) (k : A -> M B) : M B :=
  fun w => match m w with
           | (Ret a, w') => k a w'
           | (Raise e, w') => (Raise e, w')
           end.

(** The monad is used through the notations [x ← m; k] and [m ;; k]. *)
#[global] Instance M_ret : MRet M := @ret.
#[global] Instance M_bind : MBind M := fun A B k m => bind m k.

(** [try: body  except Exception as e: handler e] *)
Definition try_except {A} (body : M A) (handler : exn -> M A) : M A :=
  fun w => match body w with
           | (Ret a, w') => (Ret a, w')
           | (Raise e, w') => if is_Exception e then handler e w' else (Raise e, w')
           end.

(** ** Primitive operations of the run-time system *)

Definition get {A} (f : world -> A) : M A := fun w => (Ret (f w), w).
Definition modify (f : world -> world) : M unit := fun w => (Ret tt, f w).

(** One system call; it fails with [OSError] when the fault list says so. An
    exhausted list means that nothing fails any more. *)
Definition syscall : M unit :=
  fun w => match faults w with
           | true :: fl => (Raise OSError, set_faults fl w)
           | false :: fl => (Ret tt, set_faults fl w)
           | [] => (Ret tt, w)
           end.

(** [logger.info], [logger.warning], [logger.error] *)
Definition logger (lv : level) (msg : string) : M unit :=
  modify (fun w => set_log (log w ++ [(lv, msg)]) w).

(** [signal.emit(...)] *)
Definition emit (e : event) : M unit :=
  modify (fun w => set_events (events w ++ [e]) w).

(** [Path.exists], [Path.is_file], [Path.is_dir], as pathlib has them up to
    Python 3.13: one [stat] call. A path that is not there answers [False];
    a call that fails for another reason (name too long, permission denied,
    I/O error) raises its [OSError]. *)
Definition path_exists (p : path) : M bool :=
  syscall ;;
  get (fun w => match lookup_node p (root w) with Some _ => true | None => false end).
Definition is_file (p : path) : M bool :=
  syscall ;;
  get (fun w => file_at (root w) p).
Definition is_dir (p : path) : M bool :=
  syscall ;;
  get (fun w => match lookup_node p (root w) with Some (Dir _) => true | _ => false end).

(** [list(p.rglob('*'))]: the walk is taken as one step, which reads the
    directories below [p] and can fail like any other call. *)
Definition rglob (p : path) : M (list path) :=
  syscall ;;
  get (fun w => match lookup_node p (root w) with
                | Some n => rglob_star p n
                | None => []
                end).

Definition new_object (p : path) (md : mode) : M nat :=
  fun w => (Ret (length (objects w)),
            set_objects (objects w ++ [FileObject p md false]) w).

(** [open(p, 'rb')] and [open(p, 'wb')]; the latter truncates or creates. *)
Definition open (p : path) (md : mode) : M nat :=
  syscall ;;
  r ← get root;
  match lookup_node p r with
  | Some (Dir _) => raise (IsADirectoryError (path_str p))
  | found =>
      match md with
      | RB => match found with
              | Some _ => new_object p RB
              | None => raise (FileNotFoundError (path_str p))
              end
      | WB => match set_file p [] r with
              | Some r' => modify (set_root r') ;; new_object p WB
              | None => raise (FileNotFoundError (path_str p))
              end
      end
  end.

Definition the_object (f : nat) : M file_object :=
  fun w => match objects w !! f with
           | Some o => (Ret o, w)
           | None => (Raise (ValueError "I/O operation on closed file"), w)
           end.

(** Every method below starts with the check that makes an operation on a
    closed file raise [ValueError], with the message of that method. *)
Definition check_open (f : nat) (msg : string) : M file_object :=
  o ← the_object f;
  if closed o then raise (ValueError msg) else ret o.

Definition file_content (p : path) : M bytes :=
  r ← get root;
  match lookup_node p r with
  | Some (File d) => ret d
  | _ => raise OSError
  end.

(** [f.read()] *)
Definition read (f : nat) : M bytes :=
  o ← check_open f "read of closed file";
  match fo_mode o with
  | WB => raise (UnsupportedOperation "read")
  | RB => syscall ;; file_content (fo_path o)
  end.

(** [f.write(data)]. The user-space buffer of the writer is not modelled: the
    bytes reach the file at once, and [flush] and [fsync] only check and may
    fail. *)
Definition write (f : nat) (data : bytes) : M nat :=
  o ← check_open f "write to closed file";
  match fo_mode o with
  | RB => raise (UnsupportedOperation "write")
  | WB =>
      syscall ;;
      d ← file_content (fo_path o);
      r ← get root;
      match set_file (fo_path o) (d ++ data) r with
      | Some r' => modify (set_root r') ;; ret (length data)
      | None => raise OSError
      end
  end.

(** [f.flush()] *)
Definition flush (f : nat) : M unit :=
  check_open f "flush of closed file" ;; syscall.

(** [f.fileno()] *)
Definition fileno (f : nat) : M nat :=
  check_open f "I/O operation on closed file" ;; ret f.

(** [hasattr(f, 'fileno')]: a file object has the method, open or closed. *)
Definition hasattr_fileno (f : nat) : bool := true.

(** [os.fsync(fd)] *)
Definition fsync (fd : nat) : M unit := syscall.

(** [f.close()]: closing twice is allowed; the object counts as closed even
    when the final system call fails. *)
Definition close (f : nat) : M unit :=
  o ← the_object f;
  if closed o then ret tt
  else
    modify (fun w => set_objects
                       (<[f := FileObject (fo_path o) (fo_mode o) true]> (objects w)) w) ;;
    syscall.

(** [with open(p, md) as f: body]. The variable [f] stays bound after the
    block, so the file object is returned next to the value of the body;
    [__exit__] closes the file on both the normal and the exceptional way
    out. *)
Definition with_open {A} (p : path) (md : mode) (body : nat -> M A) : M (nat * A) :=
  f ← open p md;
  ((fun w => match body f w with
             | (Ret a, w') => (close f ;; ret (f, a)) w'
             | (Raise e, w') => (close f ;; raise e) w'
             end) : M (nat * A)).

(** [string.ascii_letters] *)
Definition ascii_letters : string :=
  "abcdefghijklmnopqrstuvwxyzABCDEFGHIJKLMNOPQRSTUVWXYZ".

(** [random.choices(population, k=k)] *)
Definition random_choices (population : string) (k : Z) : M (list ascii) :=
  fun w =>
    let pop := String.list_ascii_of_string population in
    let pick i := nth (rand w (rand_pos w + i) mod length pop)%nat pop Ascii.zero in
    (Ret (map pick (seq 0 (Z.to_nat k))), set_rand_pos (rand_pos w + Z.to_nat k) w).

(** [''.join(chars)] *)
Definition join (chars : list ascii) : string := String.string_of_list_ascii chars.

(** A pure computation that may raise, run inside the monad. *)
Definition lift {A} (r : result A) : M A := fun w => (r, w).

(** [n * x] for a Python int and a float: the int is converted first. *)
Definition int_mul_float (n : Z) (x : spec_float) : result spec_float :=
  match Float.of_int n with
  | S754_infinity _ => Raise (OverflowError "int too large to convert to float")
  | fn => Ret (Float.mul fn x)
  end.

(** [int(x)] for a float. *)
Definition int_of_float (x : spec_float) : result Z :=
  match Float.to_int x with
  | Some z => Ret z
  | None => match x with
            | S754_nan => Raise (ValueError "cannot convert float NaN to integer")
            | _ => Raise (OverflowError "cannot convert float infinity to integer")
            end
  end.

(** [int(original_size * 0.9)] *)
Definition new_size_of (original_size : Z) : result Z :=
  match int_mul_float original_size Float.lit_0_9 with
  | Ret x => int_of_float x
  | Raise e => Raise e
  end.

(** ** The erase engine *)

Definition callback := option (string -> M unit).

(** [self.progress.emit], the callback the worker hands to [erase_file]. *)
Definition emit_progress (msg : string) : M unit := emit (Progress msg).

(** [if progress_callback: progress_callback(msg)] *)
Definition notify (progress_callback : callback) (msg : string) : M unit :=
  match progress_callback with
  | Some cb => cb msg
  | None => ret tt
  end.

(** The progress messages of the four steps. *)
Definition step1_msg (p : path) : string :=
  "Step 1/4: Removing 10% of content from " +:+ name p.
Definition step2_msg (p : path) : string :=
  "Step 2/4: Replacing with random letters in " +:+ name p.
Definition step3_msg (p : path) : string :=
  "Step 3/4: Overwriting with 'hello world' in " +:+ name p.
Definition step4_msg (p : path) : string :=
  "Step 4/4: Clearing content of " +:+ name p.

(** The pattern written by the third pass. *)
Definition hello_data (new_size : Z) : bytes :=
  slice_to (bytes_mul (encode "hello world ") (new_size / 12 + 1)) new_size.

(** Step 1: remove 10% of the content. The flush and the fsync come after the
    [with] block, as in the source. *)
Definition step1 (file_path : path) (progress_callback : callback)
    (original_content : bytes) : M Z :=
  let original_size := Z.of_nat (length original_content) in
  notify progress_callback (step1_msg file_path) ;;
  new_size ← lift (new_size_of original_size);
  '(f, _) ← with_open file_path WB
              (fun f => write f (slice_to original_content new_size));
  flush f ;;
  (if hasattr_fileno f then fd ← fileno f; fsync fd else ret tt) ;;
  logger INFO ("Step 1 complete: Removed 10% from " +:+ path_str file_path) ;;
  ret new_size.

(** Step 2: replace the remaining bytes with random letters. *)
Definition step2 (file_path : path) (progress_callback : callback)
    (new_size : Z) : M unit :=
  notify progress_callback (step2_msg file_path) ;;
  chars ← random_choices ascii_letters new_size;
  let random_letters := encode (join chars) in
  with_open file_path WB
    (fun f => write f random_letters ;;
              flush f ;;
              fd ← fileno f; fsync fd) ;;
  logger INFO
    ("Step 2 complete: Replaced with random letters in " +:+ path_str file_path).

(** Step 3: overwrite with "hello world" repeated. *)
Definition step3 (file_path : path) (progress_callback : callback)
    (new_size : Z) : M unit :=
  notify progress_callback (step3_msg file_path) ;;
  with_open file_path WB
    (fun f => write f (hello_data new_size) ;;
              flush f ;;
              fd ← fileno f; fsync fd) ;;
  logger INFO
    ("Step 3 complete: Overwrote with 'hello world' in " +:+ path_str file_path).

(** Step 4: overwrite with empty content. *)
Definition step4 (file_path : path) (progress_callback : callback) : M unit :=
  notify progress_callback (step4_msg file_path) ;;
  with_open file_path WB
    (fun f => write f [] ;;
              flush f ;;
              fd ← fileno f; fsync fd) ;;
  logger INFO ("Step 4 complete: Cleared content of " +:+ path_str file_path).

(** The body of the [try] statement of [erase_file]. *)
Definition erase_file_body (file_path : path) (progress_callback : callback)
  : M bool :=
  ex ← path_exists file_path;
  if negb ex then
    logger WARNING ("File not found: " +:+ path_str file_path) ;;
    ret false
  else
    '(_, original_content) ← with_open file_path RB (fun f => read f);
    let original_size := Z.of_nat (length original_content) in
    if original_size =? 0 then
      logger INFO ("File is empty, skipping: " +:+ path_str file_path) ;;
      ret true
    else
      new_size ← step1 file_path progress_callback original_content;
      step2 file_path progress_callback new_size ;;
      step3 file_path progress_callback new_size ;;
      step4 file_path progress_callback ;;
      logger INFO ("Successfully erased: " +:+ path_str file_path) ;;
      ret true.

Definition erase_file (file_path : path) (progress_callback : callback) : M bool :=
  try_except
    (erase_file_body file_path progress_callback)
    (fun e =>
       logger ERROR ("Error erasing " +:+ path_str file_path +:+ ": " +:+ exn_str e) ;;
       ret false).

(** ** The target resolver *)

(** The inner loop of [get_all_files] over the result of [rglob]. *)
Fixpoint keep_files (found : list path) (all_files : list path) : M (list path) :=
  match found with
  | [] => ret all_files
  | file_path :: rest =>
      b ← is_file file_path;
      if b : bool then keep_files rest (all_files ++ [file_path])
      else keep_files rest all_files
  end.

Fixpoint get_all_files_loop (paths : list path) (all_files : list path)
  : M (list path) :=
  match paths with
  | [] => ret all_files
  | p :: rest =>
      f ← is_file p;
      if f : bool then get_all_files_loop rest (all_files ++ [p])
      else
        d ← is_dir p;
        if d : bool then
          found ← rglob p;
          all_files' ← keep_files found all_files;
          get_all_files_loop rest all_files'
        else get_all_files_loop rest all_files
  end.

Definition get_all_files (paths : list path) : M (list path) :=
  get_all_files_loop paths [].

(** ** The batch coordinator *)

Module EraseWorker.

(** [stop]: sets [self.is_running = False]. *)
Definition stop : M unit := modify (set_is_running false).

(** The interface thread runs beside the worker. All it does to the worker is
    call [stop], and the worker reads the flag only at the head of its loop, so
    the interleaving is fixed by saying during which iterations [stop] was
    called: [ui i] holds when that happened while file [i] was being erased. *)
Definition ui_thread (ui : nat -> bool) (i : nat) : M unit :=
  if ui i then stop else ret tt.

(** The part of the loop body that handles a file once it is started. *)
Definition process_file (total i : nat) (file_path : path) : M bool :=
  emit (FileProgress (i + 1) total) ;;
  emit (Progress ("Processing file " +:+ pretty (i + 1)%nat +:+ "/" +:+
                  pretty total +:+ ": " +:+ name file_path)) ;;
  erase_file file_path (Some emit_progress).

(** The [for] loop of [run]; the pair is [(success_count, fail_count)]. *)
Fixpoint run_loop (ui : nat -> bool) (total i : nat) (files : list path)
    (success_count fail_count : nat) : M (nat * nat) :=
  match files with
  | [] => ret (success_count, fail_count)
  | file_path :: rest =>
      running ← get is_running;
      if negb running then
        emit (Progress "Erasing stopped by user") ;;
        ret (success_count, fail_count)
      else
        ok ← process_file total i file_path;
        ui_thread ui i ;;
        if ok : bool then run_loop ui total (S i) rest (success_count + 1) fail_count
        else run_loop ui total (S i) rest success_count (fail_count + 1)
  end.

(** [run], for the files the worker was created with. *)
Definition run (files : list path) (ui : nat -> bool) : M unit :=
  let total := length files in
  '(success_count, fail_count) ← run_loop ui total 0 files 0 0;
  emit (Finished success_count fail_count).

End EraseWorker.

Import EraseWorker.

(** ** Vocabulary of the statements *)

(** The two callbacks the program uses: none (the default argument) and the
    [progress] signal of the worker. *)
Definition standard (cb : callback) : Prop := cb = None \/ cb = Some emit_progress.

(** The events a standard callback produces for the given messages. *)
Definition reported (cb : callback) (msgs : list string) : list event :=
  match cb with
  | Some _ => map Progress msgs
  | None => []
  end.

Definition is_progress (e : event) : bool :=
  match e with
  | Progress _ => true
  | _ => false
  end.

(** A computation is tame when it leaves the flag of the worker alone, adds
    nothing but [Progress] events to the signals, and raises only what
    [except Exception] catches. *)
Definition tame {A} (m : M A) : Prop :=
  forall w, exists r w' evs,
    m w = (r, w') /\
    is_running w' = is_running w /\
    events w' = events w ++ evs /\
    Forall (fun e => is_progress e = true) evs /\
    match r with
    | Raise e => is_Exception e = true
    | Ret _ => True
    end.

(** A callback is tame when each of its calls is. *)
Definition tame_callback (cb : callback) : Prop :=
  match cb with
  | Some f => forall msg, tame (f msg)
  | None => True
  end.

(** A small file system used to run the program on concrete inputs: the
    directory [docs] holds three files and one subdirectory with two files. *)
Definition sample_tree : node :=
  Dir [("docs", Dir [("a.txt", File (encode "0123456789"));
                     ("b.txt", File (encode "xy"));
                     ("c.txt", File (encode "c"));
                     ("sub", Dir [("d.txt", File (encode "d"));
                                  ("e.txt", File [])])]);
       ("empty", File [])].

Definition sample_world : world :=
  World sample_tree [] [] (fun n => 7 * n + 3)%nat 0 [] [] true.

(** The [(current, total)] pairs of the [file_progress] signals among some
    events, and the [(success_count, fail_count)] pairs of the
    [finished_signal]s. *)
Fixpoint file_progress_of (evs : list event) : list (nat * nat) :=
  match evs with
  | [] => []
  | FileProgress c t :: evs' => (c, t) :: file_progress_of evs'
  | _ :: evs' => file_progress_of evs'
  end.

Fixpoint finished_of (evs : list event) : list (nat * nat) :=
  match evs with
  | [] => []
  | Finished s f :: evs' => (s, f) :: finished_of evs'
  | _ :: evs' => finished_of evs'
  end.

(** The files number [i+1], ..., [i+j] of [total] were started, in order. *)
Definition started (total i j : nat) : list (nat * nat) :=
  map (fun t => (i + t + 1, total)%nat) (seq 0 j).

(** Erasing some files one after the other, with nobody asking to stop; the
    result lists the outcome of each file. *)
Fixpoint process_files (total i : nat) (files : list path) : M (list bool) :=
  match files with
  | [] => ret []
  | file_path :: rest =>
      ok ← process_file total i file_path;
      oks ← process_files total (S i) rest;
      ret (ok :: oks)
  end.

Definition successes (oks : list bool) : nat := length (List.filter id oks).
Definition failures (oks : list bool) : nat := length (List.filter negb oks).

(** [stop] is called once [j] files, counted from file number [i], are done
    and not before: for [j = 0] the flag is down from the start. *)
Definition stop_after (ui : nat -> bool) (i j : nat) (w : world) : Prop :=
  match j with
  | O => is_running w = false
  | S j' => is_running w = true /\
            (forall t, (t < j')%nat -> ui (i + t)%nat = false) /\
            ui (i + j')%nat = true
  end.


(** What one target adds to the result of [get_all_files]. *)
Definition contribution (r : node) (p : path) : list path :=
  match lookup_node p r with
  | Some (File _) => [p]
  | Some (Dir es) => List.filter (file_at r) (rglob_star p (Dir es))
  | None => []
  end.

(** Induction on trees, with the hypothesis for every entry of a directory. *)
Fixpoint node_ind_entries (P : node -> Prop)
    (HF : forall d, P (File d))
    (HD : forall es, Forall (fun ce => P (snd ce)) es -> P (Dir es))
    (n : node) : P n :=
  match n with
  | File d => HF d
  | Dir es =>
      HD es ((fix go (l : list (string * node)) : Forall (fun ce => P (snd ce)) l :=
                match l with
                | [] => List.Forall_nil _
                | ce :: l' =>
                    List.Forall_cons _ ce l' (node_ind_entries P HF HD (snd ce)) (go l')
                end) es)
  end.

(** What a path names in a tree: nothing, a directory, or a regular file with
    its content. *)
Definition entry_at (r : node) (q : path) : option (option bytes) :=
  match lookup_node q r with
  | Some (File d) => Some (Some d)
  | Some (Dir _) => Some None
  | None => None
  end.

(** What a path names once a regular file may have lost the end of its
    content: the same as before, or a file holding a prefix of what it held. *)
Definition shrunk (before after : option (option bytes)) : Prop :=
  match before with
  | Some (Some d) => exists k, after = Some (Some (take k d))
  | _ => after = before
  end.

(** Whether [p] names an empty regular file of the tree. *)
Definition is_empty_file (r : node) (p : path) : bool :=
  match lookup_node p r with
  | Some (File []) => true
  | _ => false
  end.

(** ** The configuration file *)

(** The values [json.load] returns and [json.dump] accepts. *)
Inductive json :=
| JNull
| JBool (b : bool)
| JInt (n : Z)
| JFloat (x : spec_float)
| JString (s : string)
| JArray (items : list json)
| JObject (members : list (string * json)).

Definition DEFAULT_CONFIG : json :=
  JObject [("folders_to_erase", JArray []); ("files_to_erase", JArray [])].

Section Config.

(** The place of the configuration file, and the parts of the Python library
    the two functions go through: the decoding of a text file (the text, or
    the message of the [UnicodeDecodeError]), the JSON parser (the value, or
    the message of the [JSONDecodeError]) and the JSON encoder used with
    [indent=2], which yields the text in chunks of plain ASCII. *)
Variable CONFIG_FILE : path.
Variable decode : bytes -> string + string.
Variable json_loads : string -> json + string.
Variable json_iterencode : json -> list string.

(** [json.dumps(config, indent=2)]: the chunks of the encoder, joined. *)
Definition json_dumps (config : json) : string :=
  String.concat "" (json_iterencode config).

(** [json.load(f)] on a file opened in text mode: the content is read,
    decoded and parsed; both errors are subclasses of [ValueError]. *)
Definition json_load (f : nat) : M json :=
  data ← read f;
  match decode data with
  | inr msg => raise (ValueError msg)
  | inl text =>
      match json_loads text with
      | inr msg => raise (ValueError msg)
      | inl v => ret v
      end
  end.

(** [for chunk in chunks: f.write(chunk)] on a file opened in text mode. *)
Fixpoint write_chunks (f : nat) (chunks : list string) : M unit :=
  match chunks with
  | [] => ret tt
  | chunk :: rest => write f (encode chunk) ;; write_chunks f rest
  end.

(** [json.dump(config, f, indent=2)]: every chunk the encoder yields is
    written to the file, in order; a write that fails leaves the earlier
    chunks in the file. As for [write], the buffer of the text layer is not
    modelled: in CPython a partial text ends where the buffer was last
    flushed, here it ends at a chunk, and in both it is a prefix of the
    text. *)
Definition json_dump (config : json) (f : nat) : M unit :=
  write_chunks f (json_iterencode config).

(** [load_config]. The test of the first line is outside the [try]. The
    [return] inside the [try] is the [Some] of the intermediate result;
    [None] falls through to the default. [DEFAULT_CONFIG.copy()] is taken as
    the value [DEFAULT_CONFIG]. *)
Definition load_config : M json :=
  ex ← path_exists CONFIG_FILE;
  if ex : bool then
    returned ← try_except
      ('(_, v) ← with_open CONFIG_FILE RB json_load; ret (Some v))
      (fun e =>
         logger ERROR ("Error loading config: " +:+ exn_str e) ;;
         ret None);
    match returned with
    | Some v => ret v
    | None => ret DEFAULT_CONFIG
    end
  else ret DEFAULT_CONFIG.

(** [save_config] *)
Definition save_config (config : json) : M unit :=
  try_except
    (with_open CONFIG_FILE WB (json_dump config) ;;
     logger INFO "Config saved successfully")
    (fun e => logger ERROR ("Error saving config: " +:+ exn_str e)).

End Config.

(** A small codec that knows two values, to run the two functions on. *)
Definition sample_decode (data : bytes) : string + string :=
  inl (String.string_of_list_byte data).
Definition sample_iterencode (v : json) : list string :=
  match v with
  | JObject [] => ["{"; "}"]
  | _ => ["null"]
  end.
Definition sample_loads (text : string) : json + string :=
  if String.eqb text "{}" then inl (JObject [])
  else if String.eqb text "null" then inl JNull
  else inr "Expecting value: line 1 column 1 (char 0)"%string.

(** [p] can be opened for writing: it names a regular file, or nothing yet in
    a directory that exists. *)
Definition writable (r : node) (p : path) : Prop :=
  (exists d, lookup_node p r = Some (File d)) \/
  (exists dir c es,
     p = dir ++ [c] /\ lookup_node dir r = Some (Dir es) /\ assoc c es = None).

(** A computation is silent when it writes no log record, emits no signal and
    raises nothing but what [except Exception] catches. *)
Definition silent {A} (m : M A) : Prop :=
  forall w r w', m w = (r, w') ->
    log w' = log w /\ events w' = events w /\
    match r with
    | Raise e => is_Exception e = true
    | Ret _ => True
    end.

(** * Properties *)

(** ** The file-system tree *)

Lemma assoc_replace_entry c n es x :
  assoc c es = Some x -> assoc c (replace_entry c n es) = Some n.
Proof.
  induction es as [|[c' n'] es IH]; simpl; [done|].
  destruct (String.eqb c c') eqn:E; simpl; rewrite E; auto.
Qed.

Lemma replace_entry_twice c n1 n2 es :
  replace_entry c n2 (replace_entry c n1 es) = replace_entry c n2 es.
Proof.
  induction es as [|[c' n'] es IH]; simpl; [done|].
  destruct (String.eqb c c') eqn:E; simpl; rewrite E; [done|]. by rewrite IH.
Qed.

Lemma set_file_is_Some p d d' r :
  lookup_node p r = Some (File d) -> is_Some (set_file p d' r).
Proof.
  revert r. induction p as [|c p IH]; intros r H; simpl in *.
  - injection H as ->. by eexists.
  - destruct r as [|es]; [done|]. destruct (assoc c es) as [ch|]; [|done].
    destruct (IH _ H) as [ch' ->]. by eexists.
Qed.

Lemma lookup_set_file p d d' r r' :
  lookup_node p r = Some (File d) -> set_file p d' r = Some r' ->
  lookup_node p r' = Some (File d').
Proof.
  revert r r'. induction p as [|c p IH]; intros r r' H S; simpl in *.
  - injection H as ->. by injection S as <-.
  - destruct r as [|es]; [done|]. destruct (assoc c es) as [ch|] eqn:A; [|done].
    destruct (set_file p d' ch) as [ch'|] eqn:S'; [|done]. injection S as <-.
    simpl. rewrite (assoc_replace_entry _ _ _ _ A). eauto.
Qed.

Lemma set_file_twice p d d1 d2 r r1 :
  lookup_node p r = Some (File d) -> set_file p d1 r = Some r1 ->
  set_file p d2 r1 = set_file p d2 r.
Proof.
  revert r r1. induction p as [|c p IH]; intros r r1 H S; simpl in *.
  - injection H as ->. by injection S as <-.
  - destruct r as [|es]; [done|]. destruct (assoc c es) as [ch|] eqn:A; [|done].
    destruct (set_file p d1 ch) as [ch'|] eqn:S'; [|done]. injection S as <-.
    simpl. rewrite (assoc_replace_entry _ _ _ _ A), (IH _ _ H S').
    destruct (set_file p d2 ch); [|done]. by rewrite replace_entry_twice.
Qed.

(** Writing back what a file holds changes nothing. *)
Lemma replace_entry_same c ch es :
  assoc c es = Some ch -> replace_entry c ch es = es.
Proof.
  induction es as [|[c' n'] es IH]; simpl; [done|].
  destruct (String.eqb c c') eqn:E; [by intros [= ->]|]. intros H. by rewrite IH.
Qed.

Lemma set_file_same p d r :
  lookup_node p r = Some (File d) -> set_file p d r = Some r.
Proof.
  revert r. induction p as [|c p IH]; intros r H; simpl in *.
  - by injection H as ->.
  - destruct r as [|es]; [done|]. destruct (assoc c es) as [ch|] eqn:A; [|done].
    rewrite (IH _ H). by rewrite replace_entry_same.
Qed.

(** ** Running the monad *)

Lemma bind_Ret {A B} (m : M A) (k : A -> M B) w a w' :
  m w = (Ret a, w') -> (m ≫= k) w = k a w'.
Proof. unfold mbind, M_bind, bind. by intros ->. Qed.

Lemma bind_Raise {A B} (m : M A) (k : A -> M B) w e w' :
  m w = (Raise e, w') -> (m ≫= k) w = (Raise e, w').
Proof. unfold mbind, M_bind, bind. by intros ->. Qed.

Lemma lookup_new_object {A} (o : list A) x : (o ++ [x]) !! length o = Some x.
Proof. rewrite lookup_app_r by lia. by rewrite Nat.sub_diag. Qed.

Lemma insert_new_object {A} (o : list A) x y : <[length o := y]> (o ++ [x]) = o ++ [y].
Proof. rewrite insert_app_r_alt by lia. by rewrite Nat.sub_diag. Qed.

(** *** The primitives when no system call fails *)

Lemma syscall_quiet w : faults w = [] -> syscall w = (Ret tt, w).
Proof. unfold syscall. by intros ->. Qed.

(** One system call uses up one entry of the fault list. *)
Lemma syscall_eq w :
  syscall w
  = (match faults w with true :: _ => Raise OSError | _ => Ret tt end,
     set_faults (tail (faults w)) w).
Proof. unfold syscall. destruct w as [r o [|[] fl] rd rp ev lg ir]; reflexivity. Qed.

Lemma path_exists_ret p w b w0 :
  path_exists p w = (Ret b, w0) ->
  b = match lookup_node p (root w) with Some _ => true | None => false end /\
  w0 = set_faults (tail (faults w)) w.
Proof.
  unfold path_exists, mbind, M_bind, bind, get. rewrite syscall_eq.
  destruct (faults w) as [|[] fl]; simpl; intros ?; by simplify_eq.
Qed.

Lemma path_exists_frame p w r w0 :
  path_exists p w = (r, w0) -> w0 = set_faults (tail (faults w)) w.
Proof.
  unfold path_exists, mbind, M_bind, bind, get. rewrite syscall_eq.
  destruct (faults w) as [|[] fl]; simpl; intros ?; by simplify_eq.
Qed.

Lemma path_exists_quiet p w :
  faults w = [] ->
  path_exists p w
  = (Ret match lookup_node p (root w) with Some _ => true | None => false end, w).
Proof. intros Q. unfold path_exists. by erewrite bind_Ret by (by apply syscall_quiet). Qed.

Lemma is_file_quiet p w : faults w = [] -> is_file p w = (Ret (file_at (root w) p), w).
Proof. intros Q. unfold is_file. by erewrite bind_Ret by (by apply syscall_quiet). Qed.

Lemma is_dir_quiet p w :
  faults w = [] ->
  is_dir p w
  = (Ret match lookup_node p (root w) with Some (Dir _) => true | _ => false end, w).
Proof. intros Q. unfold is_dir. by erewrite bind_Ret by (by apply syscall_quiet). Qed.

Lemma rglob_quiet p w :
  faults w = [] ->
  rglob p w
  = (Ret match lookup_node p (root w) with Some n => rglob_star p n | None => [] end, w).
Proof. intros Q. unfold rglob. by erewrite bind_Ret by (by apply syscall_quiet). Qed.

Section Quiet.
Variable w : world.
Hypothesis quiet : faults w = [].

Lemma open_rb_quiet p d :
  lookup_node p (root w) = Some (File d) ->
  open p RB w
  = (Ret (length (objects w)), set_objects (objects w ++ [FileObject p RB false]) w).
Proof.
  intros H. unfold open. erewrite bind_Ret by apply syscall_quiet, quiet.
  erewrite bind_Ret by reflexivity. by rewrite H.
Qed.

Lemma open_wb_quiet p d r1 :
  lookup_node p (root w) = Some (File d) ->
  set_file p [] (root w) = Some r1 ->
  open p WB w
  = (Ret (length (objects w)),
     set_objects (objects w ++ [FileObject p WB false]) (set_root r1 w)).
Proof.
  intros H S. unfold open. erewrite bind_Ret by apply syscall_quiet, quiet.
  erewrite bind_Ret by reflexivity. rewrite H, S.
  erewrite bind_Ret by reflexivity. reflexivity.
Qed.

Lemma check_open_ok f msg o :
  objects w !! f = Some o -> closed o = false -> check_open f msg w = (Ret o, w).
Proof.
  intros H C. unfold check_open.
  erewrite bind_Ret by (unfold the_object; rewrite H; reflexivity).
  by rewrite C.
Qed.

Lemma read_quiet f p d :
  objects w !! f = Some (FileObject p RB false) ->
  lookup_node p (root w) = Some (File d) ->
  read f w = (Ret d, w).
Proof.
  intros H L. unfold read. erewrite bind_Ret by (by eapply check_open_ok).
  simpl. erewrite bind_Ret by apply syscall_quiet, quiet.
  unfold file_content. erewrite bind_Ret by reflexivity. by rewrite L.
Qed.

Lemma write_quiet f p d data r' :
  objects w !! f = Some (FileObject p WB false) ->
  lookup_node p (root w) = Some (File d) ->
  set_file p (d ++ data) (root w) = Some r' ->
  write f data w = (Ret (length data), set_root r' w).
Proof.
  intros H L S. unfold write. erewrite bind_Ret by (by eapply check_open_ok).
  simpl. erewrite bind_Ret by apply syscall_quiet, quiet.
  erewrite bind_Ret
    by (unfold file_content; erewrite bind_Ret by reflexivity; by rewrite L).
  erewrite bind_Ret by reflexivity. rewrite S.
  erewrite bind_Ret by reflexivity. reflexivity.
Qed.

Lemma flush_quiet f o :
  objects w !! f = Some o -> closed o = false -> flush f w = (Ret tt, w).
Proof.
  intros H C. unfold flush. erewrite bind_Ret by (by eapply check_open_ok).
  apply syscall_quiet, quiet.
Qed.

Lemma fileno_ok f o :
  objects w !! f = Some o -> closed o = false -> fileno f w = (Ret f, w).
Proof.
  intros H C. unfold fileno. erewrite bind_Ret by (by eapply check_open_ok).
  reflexivity.
Qed.

Lemma close_quiet f p md :
  objects w !! f = Some (FileObject p md false) ->
  close f w
  = (Ret tt, set_objects (<[f := FileObject p md true]> (objects w)) w).
Proof.
  intros H. unfold close.
  erewrite bind_Ret by (unfold the_object; rewrite H; reflexivity).
  simpl. erewrite bind_Ret by reflexivity. by apply syscall_quiet.
Qed.

End Quiet.

(** A method called on a closed file raises, whatever the system would do. *)
Lemma check_open_closed w f msg o :
  objects w !! f = Some o -> closed o = true ->
  check_open f msg w = (Raise (ValueError msg), w).
Proof.
  intros H C. unfold check_open.
  erewrite bind_Ret by (unfold the_object; rewrite H; reflexivity).
  by rewrite C.
Qed.

Lemma flush_closed w f o :
  objects w !! f = Some o -> closed o = true ->
  flush f w = (Raise (ValueError "flush of closed file"), w).
Proof.
  intros H C. unfold flush. by erewrite bind_Raise by (by eapply check_open_closed).
Qed.

(** *** The [with] blocks of [erase_file] when no system call fails *)

Lemma with_open_read_quiet w p d :
  faults w = [] ->
  lookup_node p (root w) = Some (File d) ->
  with_open p RB read w
  = (Ret (length (objects w), d),
     set_objects (objects w ++ [FileObject p RB true]) w).
Proof.
  intros Q L. unfold with_open.
  erewrite bind_Ret by (by eapply open_rb_quiet).
  erewrite read_quiet; [| done | apply lookup_new_object | done].
  erewrite bind_Ret by (by apply close_quiet, lookup_new_object).
  unfold mret, M_ret, ret. simpl. by rewrite insert_new_object.
Qed.

Lemma with_open_write_quiet w p d data r' :
  faults w = [] ->
  lookup_node p (root w) = Some (File d) ->
  set_file p data (root w) = Some r' ->
  with_open p WB (fun f => write f data) w
  = (Ret (length (objects w), length data),
     set_objects (objects w ++ [FileObject p WB true]) (set_root r' w)).
Proof.
  intros Q L S. destruct (set_file_is_Some p d [] _ L) as [r1 S1].
  unfold with_open.
  erewrite bind_Ret by (by eapply open_wb_quiet).
  erewrite write_quiet;
    [| done | apply lookup_new_object
     | simpl; by eapply lookup_set_file
     | simpl; by erewrite set_file_twice ].
  erewrite bind_Ret by (by apply close_quiet, lookup_new_object).
  unfold mret, M_ret, ret. simpl. by rewrite insert_new_object.
Qed.

(** The block of the passes 2 to 4: write, flush and fsync inside [with]. *)
Lemma with_open_write_sync_quiet w p d data r' :
  faults w = [] ->
  lookup_node p (root w) = Some (File d) ->
  set_file p data (root w) = Some r' ->
  with_open p WB
    (fun f => write f data ;; flush f ;; fd ← fileno f; fsync fd) w
  = (Ret (length (objects w), tt),
     set_objects (objects w ++ [FileObject p WB true]) (set_root r' w)).
Proof.
  intros Q L S. destruct (set_file_is_Some p d [] _ L) as [r1 S1].
  unfold with_open.
  erewrite bind_Ret by (by eapply open_wb_quiet).
  erewrite (bind_Ret (write _ _));
    [| eapply write_quiet;
       [ done | apply lookup_new_object
       | simpl; by eapply lookup_set_file
       | simpl; by erewrite set_file_twice ] ].
  erewrite (bind_Ret (flush _));
    [| by eapply flush_quiet; [| apply lookup_new_object |] ].
  erewrite (bind_Ret (fileno _));
    [| by eapply fileno_ok; [apply lookup_new_object |] ].
  unfold fsync. rewrite syscall_quiet by done.
  erewrite bind_Ret by (by apply close_quiet, lookup_new_object).
  unfold mret, M_ret, ret. simpl. by rewrite insert_new_object.
Qed.

(** ** The erase engine *)

Lemma notify_standard cb msg w :
  standard cb ->
  notify cb msg w = (Ret tt, set_events (events w ++ reported cb [msg]) w).
Proof.
  intros [-> | ->]; simpl; [|done].
  unfold mret, M_ret, ret. destruct w; simpl. by rewrite app_nil_r.
Qed.

(** On a path that is not there, the test of the first line is all that
    happens: it answers and the warning is logged, or it fails and the handler
    logs its error. *)
Lemma erase_file_missing p cb w :
  lookup_node p (root w) = None ->
  erase_file p cb w
  = match faults w with
    | true :: fl =>
        (Ret false,
         set_log (log w ++ [(ERROR, "Error erasing " +:+ path_str p +:+ ": "
                                      +:+ exn_str OSError)]) (set_faults fl w))
    | false :: fl =>
        (Ret false,
         set_log (log w ++ [(WARNING, "File not found: " +:+ path_str p)])
           (set_faults fl w))
    | [] =>
        (Ret false,
         set_log (log w ++ [(WARNING, "File not found: " +:+ path_str p)]) w)
    end.
Proof.
  intros H.
  unfold erase_file, try_except, erase_file_body, path_exists, syscall,
    mbind, M_bind, bind, get.
  destruct (faults w) as [|[] fl]; simpl; by rewrite ?H.
Qed.

Lemma erase_file_empty p cb w :
  faults w = [] ->
  lookup_node p (root w) = Some (File []) ->
  erase_file p cb w
  = (Ret true,
     set_log (log w ++ [(INFO, "File is empty, skipping: " +:+ path_str p)])
       (set_objects (objects w ++ [FileObject p RB true]) w)).
Proof.
  intros Q H. unfold erase_file, try_except, erase_file_body.
  erewrite bind_Ret by (by apply path_exists_quiet). rewrite H. simpl.
  erewrite bind_Ret by (by apply with_open_read_quiet).
  reflexivity.
Qed.

(** What step 1 does to an existing, non-empty file when no system call
    fails: the truncated content is stored and the file is closed by the
    [with] block, then [f.flush()] finds the file closed. *)
Lemma step1_closed_file p cb w d new_size r' :
  faults w = [] ->
  standard cb ->
  lookup_node p (root w) = Some (File d) ->
  new_size_of (Z.of_nat (length d)) = Ret new_size ->
  set_file p (slice_to d new_size) (root w) = Some r' ->
  step1 p cb d w
  = (Raise (ValueError "flush of closed file"),
     set_objects (objects w ++ [FileObject p WB true])
       (set_root r' (set_events (events w ++ reported cb [step1_msg p]) w))).
Proof.
  intros Q C L N S. unfold step1.
  erewrite bind_Ret by (by apply notify_standard).
  erewrite bind_Ret by (unfold lift; by rewrite N).
  erewrite bind_Ret by (by eapply with_open_write_quiet).
  eapply bind_Raise, flush_closed; [apply lookup_new_object | done].
Qed.

(** ** Tame computations *)

Lemma tame_ret {A} (a : A) : tame (mret a).
Proof. intros w. exists (Ret a), w, []. by rewrite app_nil_r. Qed.

Lemma tame_raise {A} e : is_Exception e = true -> tame (@raise A e).
Proof. intros H w. exists (Raise e), w, []. by rewrite app_nil_r. Qed.

Lemma tame_lift {A} (r : result A) :
  (forall e, r = Raise e -> is_Exception e = true) -> tame (lift r).
Proof.
  intros H w. exists r, w, []. rewrite app_nil_r.
  repeat split; auto. destruct r; auto.
Qed.

Lemma tame_bind {A B} (m : M A) (k : A -> M B) :
  tame m -> (forall a, tame (k a)) -> tame (m ≫= k).
Proof.
  intros Hm Hk w. destruct (Hm w) as (r & w1 & evs1 & E1 & R1 & V1 & F1 & X1).
  destruct r as [a|e].
  - destruct (Hk a w1) as (r2 & w2 & evs2 & E2 & R2 & V2 & F2 & X2).
    exists r2, w2, (evs1 ++ evs2). erewrite bind_Ret by done.
    repeat split; [done | congruence | | by apply Forall_app | done].
    by rewrite V2, V1, app_assoc.
  - exists (Raise e), w1, evs1. by erewrite bind_Raise by done.
Qed.

Lemma tame_get {A} (f : world -> A) : tame (get f).
Proof. intros w. exists (Ret (f w)), w, []. by rewrite app_nil_r. Qed.

Lemma tame_modify (f : world -> world) :
  (forall w, is_running (f w) = is_running w /\ events (f w) = events w) ->
  tame (modify f).
Proof.
  intros H w. destruct (H w) as [R V]. exists (Ret tt), (f w), [].
  by rewrite app_nil_r.
Qed.

Lemma tame_emit_progress msg : tame (emit_progress msg).
Proof.
  intros w. exists (Ret tt), (set_events (events w ++ [Progress msg]) w), [Progress msg].
  repeat split; auto.
Qed.

Lemma tame_syscall : tame syscall.
Proof.
  intros w. unfold syscall. destruct (faults w) as [|[] fl]; eexists _, _, [];
    rewrite app_nil_r; repeat split; auto.
Qed.

Lemma tame_logger lv msg : tame (logger lv msg).
Proof. by apply tame_modify. Qed.

Create HintDb tame.
#[local] Hint Resolve tame_ret tame_raise tame_lift tame_get tame_emit_progress
  tame_syscall tame_logger : tame.

Ltac tame_step :=
  first
    [ solve [auto with tame]
    | lazymatch goal with
      | |- tame (mbind _ _) => apply tame_bind; [|intros]
      | |- tame (match ?x with _ => _ end) => destruct x
      end ].
Ltac tame := repeat tame_step.

Lemma tame_the_object f : tame (the_object f).
Proof.
  intros w. unfold the_object. destruct (objects w !! f); eexists _, _, [];
    rewrite app_nil_r; repeat split; auto.
Qed.
#[local] Hint Resolve tame_the_object : tame.

Lemma tame_check_open f msg : tame (check_open f msg).
Proof. unfold check_open. tame. Qed.
#[local] Hint Resolve tame_check_open : tame.

Lemma tame_new_object p md : tame (new_object p md).
Proof.
  intros w. eexists _, _, []. rewrite app_nil_r. unfold new_object. repeat split; auto.
Qed.
#[local] Hint Resolve tame_new_object : tame.

Lemma tame_set_root r : tame (modify (set_root r)).
Proof. by apply tame_modify. Qed.
#[local] Hint Resolve tame_set_root : tame.

Lemma tame_open p md : tame (open p md).
Proof. unfold open. tame. Qed.

Lemma tame_file_content p : tame (file_content p).
Proof. unfold file_content. tame. Qed.
#[local] Hint Resolve tame_open tame_file_content : tame.

Lemma tame_read f : tame (read f).
Proof. unfold read. tame. Qed.

Lemma tame_write f data : tame (write f data).
Proof. unfold write. tame. Qed.

Lemma tame_flush f : tame (flush f).
Proof. unfold flush. tame. Qed.

Lemma tame_fileno f : tame (fileno f).
Proof. unfold fileno. tame. Qed.

Lemma tame_fsync fd : tame (fsync fd).
Proof. apply tame_syscall. Qed.

Lemma tame_close f : tame (close f).
Proof. unfold close. tame. by apply tame_modify. Qed.
#[local] Hint Resolve tame_read tame_write tame_flush tame_fileno tame_fsync
  tame_close : tame.

Lemma tame_with_open {A} p md (body : nat -> M A) :
  (forall f, tame (body f)) -> tame (with_open p md body).
Proof.
  intros H. unfold with_open. apply tame_bind; [apply tame_open|]. intros f w.
  destruct (H f w) as (r & w1 & evs1 & E1 & R1 & V1 & F1 & X1). rewrite E1.
  destruct r as [a|e].
  - assert (T : tame (close f ;; mret (f, a))) by tame.
    destruct (T w1) as (r2 & w2 & evs2 & E2 & R2 & V2 & F2 & X2).
    exists r2, w2, (evs1 ++ evs2).
    repeat split; [done | congruence | | by apply Forall_app | done].
    by rewrite V2, V1, app_assoc.
  - assert (T : tame (close f ;; @raise (nat * A) e)) by tame.
    destruct (T w1) as (r2 & w2 & evs2 & E2 & R2 & V2 & F2 & X2).
    exists r2, w2, (evs1 ++ evs2).
    repeat split; [done | congruence | | by apply Forall_app | done].
    by rewrite V2, V1, app_assoc.
Qed.

Lemma tame_random_choices pop k : tame (random_choices pop k).
Proof.
  intros w. eexists _, _, []. rewrite app_nil_r. unfold random_choices.
  repeat split; auto.
Qed.

Lemma tame_notify cb msg : tame_callback cb -> tame (notify cb msg).
Proof. destruct cb; simpl; auto with tame. Qed.

Lemma new_size_of_Exception n e : new_size_of n = Raise e -> is_Exception e = true.
Proof.
  unfold new_size_of, int_mul_float, int_of_float.
  destruct (Float.of_int n); try (intros [= <-]; done);
    destruct (Float.to_int _); try done;
    destruct (Float.mul _ _); intros [= <-]; done.
Qed.

Lemma tame_new_size_of n : tame (lift (new_size_of n)).
Proof. apply tame_lift, new_size_of_Exception. Qed.

#[local] Hint Resolve tame_with_open tame_random_choices tame_notify
  tame_new_size_of : tame.

Ltac tame_step ::=
  first
    [ solve [auto with tame]
    | lazymatch goal with
      | |- tame (mbind _ _) => apply tame_bind; [|intros]
      | |- tame (with_open _ _ _) => apply tame_with_open; intros
      | |- tame (match ?x with _ => _ end) => destruct x
      end ].

Lemma tame_step1 p cb d : tame_callback cb -> tame (step1 p cb d).
Proof.
  intros C. unfold step1, hasattr_fileno. tame.
Qed.

Lemma tame_step2 p cb n : tame_callback cb -> tame (step2 p cb n).
Proof. intros C. unfold step2. tame. Qed.

Lemma tame_step3 p cb n : tame_callback cb -> tame (step3 p cb n).
Proof. intros C. unfold step3. tame. Qed.

Lemma tame_step4 p cb : tame_callback cb -> tame (step4 p cb).
Proof. intros C. unfold step4. tame. Qed.

#[local] Hint Resolve tame_step1 tame_step2 tame_step3 tame_step4 : tame.

Lemma tame_erase_file_body p cb : tame_callback cb -> tame (erase_file_body p cb).
Proof.
  intros C. unfold erase_file_body, path_exists. tame.
Qed.

(** [erase_file] always returns a boolean, and it is tame. *)
Lemma erase_file_returns p cb w :
  tame_callback cb ->
  exists b w' evs,
    erase_file p cb w = (Ret b, w') /\
    is_running w' = is_running w /\
    events w' = events w ++ evs /\
    Forall (fun e => is_progress e = true) evs.
Proof.
  intros C.
  destruct (tame_erase_file_body p cb C w) as (r & w1 & evs & E & R & V & F & X).
  unfold erase_file, try_except. rewrite E. destruct r as [b|e].
  - by exists b, w1, evs.
  - rewrite X. eexists false, _, evs. split; [reflexivity|]. by simpl.
Qed.

Lemma tame_callback_standard cb : standard cb -> tame_callback cb.
Proof. intros [-> | ->]; simpl; auto using tame_emit_progress. Qed.

(** Whatever the body of the [try] raises is reported as a failure. *)
Lemma erase_file_failure p cb w e w' :
  erase_file_body p cb w = (Raise e, w') ->
  is_Exception e = true ->
  erase_file p cb w
  = (Ret false,
     set_log (log w' ++ [(ERROR, "Error erasing " +:+ path_str p +:+ ": "
                                   +:+ exn_str e)]) w').
Proof. intros E X. unfold erase_file, try_except. by rewrite E, X. Qed.

(** *** The file object after a [with] block, whatever the system does *)

Lemma syscall_objects w r w' : syscall w = (r, w') -> objects w' = objects w.
Proof.
  unfold syscall. destruct (faults w) as [|[] fl]; by intros [= <- <-].
Qed.

Lemma open_objects p md w f w' :
  open p md w = (Ret f, w') ->
  f = length (objects w) /\ objects w' = objects w ++ [FileObject p md false].
Proof.
  unfold open, mbind, M_bind, bind. destruct (syscall w) as [[[]|e] w1] eqn:S; [|done].
  apply syscall_objects in S. unfold get. simpl.
  destruct (lookup_node p (root w1)) as [[]|], md; simpl;
    try destruct (set_file p [] (root w1)); simpl; unfold new_object;
    intros [= <- <-]; simpl; by rewrite S.
Qed.

Lemma write_objects f data w r w' :
  write f data w = (r, w') -> objects w' = objects w.
Proof.
  unfold write, check_open, the_object, file_content, mbind, M_bind, bind, get.
  destruct (objects w !! f) as [[p [] []]|]; simpl; try by intros [= <- <-].
  destruct (syscall w) as [[[]|e] w1] eqn:S; apply syscall_objects in S;
    [|by intros [= <- <-]].
  destruct (lookup_node p (root w1)) as [[d|]|]; simpl; try by intros [= <- <-].
  destruct (set_file p (d ++ data) (root w1)); simpl; by intros [= <- <-].
Qed.

Lemma close_objects f o w r w' :
  objects w !! f = Some o ->
  close f w = (r, w') ->
  exists o', objects w' !! f = Some o' /\ closed o' = true.
Proof.
  intros H. unfold close, the_object, mbind, M_bind, bind. rewrite H.
  destruct (closed o) eqn:C; simpl.
  - intros [= <- <-]. eauto.
  - unfold modify.
    destruct (syscall _) as [[[]|e] w1] eqn:S; apply syscall_objects in S;
      intros [= <- <-]; rewrite S; simpl;
      (eexists; split; [apply list_lookup_insert_eq; by eapply lookup_lt_Some | done]).
Qed.

Lemma with_open_write_closed p data w f n w' :
  with_open p WB (fun f => write f data) w = (Ret (f, n), w') ->
  exists o, objects w' !! f = Some o /\ closed o = true.
Proof.
  unfold with_open. unfold mbind at 1. unfold M_bind, bind.
  destruct (open p WB w) as [[f0|e] w1] eqn:O; [|done].
  apply open_objects in O as [-> O].
  destruct (write _ data w1) as [[k|e] w2] eqn:W; apply write_objects in W.
  - unfold mbind, M_bind, bind.
    destruct (close _ w2) as [[[]|e] w3] eqn:Cl; [|done].
    intros [= <- <- <-]. eapply close_objects; [|done].
    rewrite W, O. apply lookup_new_object.
  - unfold mbind, M_bind, bind. by destruct (close _ w2) as [[[]|?] w3].
Qed.

(** An existing, non-empty regular file is never reported as erased: either
    something fails on the way, or [f.flush()] meets the closed file. *)
Lemma step1_raises p cb d w :
  tame_callback cb ->
  exists e w', step1 p cb d w = (Raise e, w').
Proof.
  intros C. unfold step1.
  destruct (tame_notify cb (step1_msg p) C w) as ([|e] & w1 & evs & E1 & _);
    [erewrite bind_Ret by done | erewrite bind_Raise by done; eauto].
  unfold lift. destruct (new_size_of _) as [n|e] eqn:N;
    [erewrite bind_Ret by done | erewrite bind_Raise by done; eauto].
  destruct (with_open p WB (fun f => write f (slice_to d n)) w1)
    as [[[f x]|e] w2] eqn:E2;
    [erewrite bind_Ret by done | erewrite bind_Raise by done; eauto].
  destruct (with_open_write_closed _ _ _ _ _ _ E2) as (o & O & Cl).
  erewrite bind_Raise by (by eapply flush_closed). eauto.
Qed.

Lemma syscall_root w r w' : syscall w = (r, w') -> root w' = root w.
Proof.
  unfold syscall. destruct (faults w) as [|[] fl]; by intros [= <- <-].
Qed.

(** A successful read hands out the content of the file. *)
Lemma with_open_read_content p d w f x w' :
  lookup_node p (root w) = Some (File d) ->
  with_open p RB read w = (Ret (f, x), w') ->
  x = d.
Proof.
  intros L. unfold with_open. unfold mbind at 1. unfold M_bind, bind.
  destruct (open p RB w) as [[f0|e] w1] eqn:O; [|done].
  assert (R1 : root w1 = root w /\ objects w1 !! f0 = Some (FileObject p RB false)).
  { destruct (open_objects _ _ _ _ _ O) as [-> Ob]. rewrite Ob, lookup_new_object.
    split; [|done]. revert O. unfold open, mbind, M_bind, bind.
    destruct (syscall w) as [[[]|e] w0] eqn:S; [|done].
    apply syscall_root in S. unfold get. simpl. rewrite S, L.
    by intros [= _ <-]. }
  destruct R1 as [R1 Ob].
  destruct (read f0 w1) as [[y|e] w2] eqn:R.
  - assert (y = d) as ->.
    { revert R. unfold read, check_open, the_object, file_content, mbind, M_bind, bind, get.
      rewrite Ob. simpl.
      destruct (syscall w1) as [[[]|e] w0] eqn:S; [|done].
      apply syscall_root in S. rewrite S, R1, L. simpl. by intros [= <- _]. }
    unfold mbind, M_bind, bind. destruct (close f0 w2) as [[[]|e] w3]; [|done].
    by intros [= _ <- _].
  - unfold mbind, M_bind, bind. by destruct (close f0 w2) as [[[]|e'] w3].
Qed.

Lemma erase_file_never_succeeds p cb d w :
  tame_callback cb ->
  lookup_node p (root w) = Some (File d) ->
  d <> [] ->
  exists w', erase_file p cb w = (Ret false, w').
Proof.
  intros C L D.
  destruct (erase_file_returns p cb w C) as (b & w' & _ & E & _).
  exists w'. rewrite E. f_equal. f_equal. destruct b; [exfalso|done].
  revert E. unfold erase_file, try_except.
  destruct (erase_file_body p cb w) as [[b|e] w1] eqn:B;
    [|destruct (is_Exception e); [by intros [= ? ?]|done]].
  intros [= -> ->]. revert B. unfold erase_file_body.
  unfold mbind at 1. unfold M_bind, bind.
  destruct (path_exists p w) as [[ex|e] w0] eqn:PE; [|done].
  apply path_exists_ret in PE as [-> E0]. rewrite L. simpl.
  assert (L0 : lookup_node p (root w0) = Some (File d)) by (by rewrite E0).
  clear E0 L. rename L0 into L.
  destruct (with_open p RB read w0) as [[[f x]|e] w2] eqn:R;
    [erewrite bind_Ret by done | by erewrite bind_Raise by done].
  cbv beta iota.
  destruct (Z.of_nat (length x) =? 0) eqn:Z0.
  - apply (with_open_read_content _ _ _ _ _ _ L) in R as ->.
    destruct d; [done|]. simpl in Z0. lia.
  - destruct (step1_raises p cb x w2 C) as (e & w3 & S).
    by erewrite bind_Raise by done.
Qed.

(** ** The claims about the erase engine *)

(** C10. For a path that does not exist, [erase_file] returns [False] and does
    nothing else than test the path and log one record: whatever the progress
    callback is, it is not called, no file is opened, read or written, no
    random letter is drawn, and the file system and the emitted signals are
    those of before. The record is the warning "File not found" when the test
    answers, and an error record with the message of the test when the test
    itself fails. *)
Theorem erase_file_missing_is_atomic p (cb : callback) w :
  lookup_node p (root w) = None ->
  exists w',
    erase_file p cb w = (Ret false, w') /\
    root w' = root w /\ objects w' = objects w /\ events w' = events w /\
    rand_pos w' = rand_pos w /\ is_running w' = is_running w /\
    faults w' = tail (faults w) /\
    match faults w with
    | true :: _ =>
        exists msg,
          log w' = log w ++ [(ERROR, "Error erasing " +:+ path_str p +:+ ": "
                                       +:+ msg)]
    | _ => log w' = log w ++ [(WARNING, "File not found: " +:+ path_str p)]
    end.
Proof.
  intros L. rewrite (erase_file_missing _ cb _ L).
  destruct (faults w) as [|[] fl] eqn:F; eexists; (split; [reflexivity|]);
    simpl; rewrite ?F; repeat split; eauto.
Qed.

Lemma erase_file_missing_is_atomic_witness :
  let w := set_faults [true] sample_world in
  exists w',
    erase_file ["docs"; "ghost"] (Some emit_progress) w = (Ret false, w') /\
    root w' = root w /\ objects w' = objects w /\ events w' = events w /\
    rand_pos w' = rand_pos w /\ is_running w' = is_running w /\
    faults w' = [] /\
    exists msg, log w' = log w ++ [(ERROR, "Error erasing /docs/ghost: " +:+ msg)].
Proof.
  intros w.
  apply (erase_file_missing_is_atomic ["docs"; "ghost"] (Some emit_progress) w).
  reflexivity.
Defined.

(** C7. For an existing file of size 0, when no system call fails,
    [erase_file] returns [True]; the file is opened for reading only, nothing
    is written, the callback is not called, and the file system and the
    signals are unchanged, so that a second run on the same file returns
    [True] again and still changes nothing. *)
Theorem erase_file_empty_is_success p (cb : callback) w :
  faults w = [] ->
  lookup_node p (root w) = Some (File []) ->
  exists w1 w2,
    erase_file p cb w = (Ret true, w1) /\
    erase_file p cb w1 = (Ret true, w2) /\
    root w1 = root w /\ root w2 = root w /\
    events w1 = events w /\ events w2 = events w /\
    objects w1 = objects w ++ [FileObject p RB true] /\
    objects w2 = objects w ++ [FileObject p RB true; FileObject p RB true] /\
    lookup_node p (root w2) = Some (File []).
Proof.
  intros Q L. eexists _, _.
  split; [by apply erase_file_empty|].
  split; [by apply erase_file_empty|].
  simpl. by rewrite <- app_assoc.
Qed.

Lemma erase_file_empty_is_success_witness :
  exists w1 w2,
    erase_file ["empty"] (Some emit_progress) sample_world = (Ret true, w1) /\
    erase_file ["empty"] (Some emit_progress) w1 = (Ret true, w2) /\
    root w1 = root sample_world /\ root w2 = root sample_world /\
    events w1 = events sample_world /\ events w2 = events sample_world /\
    objects w1 = objects sample_world ++ [FileObject ["empty"] RB true] /\
    objects w2 = objects sample_world
                 ++ [FileObject ["empty"] RB true; FileObject ["empty"] RB true] /\
    lookup_node ["empty"] (root w2) = Some (File []).
Proof.
  apply (erase_file_empty_is_success ["empty"] (Some emit_progress) sample_world);
    reflexivity.
Defined.

(** C6. [erase_file] never lets an exception escape. On a path that does not
    exist it returns [False], after logging "File not found" when the test of
    the path answers; in every world, whatever system calls fail, it returns a
    boolean; and every exception raised inside its [try] block, by the test of
    the path or in whichever pass, is logged and turned into the result
    [False]. *)
Theorem erase_file_never_raises p (cb : callback) w :
  tame_callback cb ->
  (lookup_node p (root w) = None ->
   exists w',
     erase_file p cb w = (Ret false, w') /\
     ((forall fl, faults w <> true :: fl) ->
      log w' = log w ++ [(WARNING, "File not found: " +:+ path_str p)])) /\
  (exists b w', erase_file p cb w = (Ret b, w')) /\
  (forall e w',
     erase_file_body p cb w = (Raise e, w') ->
     erase_file p cb w
     = (Ret false,
        set_log (log w' ++ [(ERROR, "Error erasing " +:+ path_str p +:+ ": "
                                      +:+ exn_str e)]) w')).
Proof.
  intros C. split; [|split].
  - intros L. rewrite (erase_file_missing _ cb _ L).
    destruct (faults w) as [|[] fl] eqn:F; eexists; (split; [reflexivity|]);
      intros N; [done | by destruct (N fl) | done].
  - destruct (erase_file_returns p cb w C) as (b & w' & _ & E & _). eauto.
  - intros e w' E. apply erase_file_failure; [done|].
    destruct (tame_erase_file_body p cb C w) as (r & w1 & _ & E1 & _ & _ & _ & X).
    rewrite E in E1. by injection E1 as <- <-.
Qed.

Lemma erase_file_never_raises_witness :
  exists b w',
    erase_file ["docs"; "a.txt"] (Some emit_progress)
      (set_faults [false; false; true] sample_world) = (Ret b, w').
Proof.
  apply (erase_file_never_raises ["docs"; "a.txt"] (Some emit_progress)
           (set_faults [false; false; true] sample_world)).
  intros msg. apply tame_emit_progress.
Defined.

(** C2. For an existing, non-empty file, when no system call fails and
    [int(N * 0.9)] has the value [new_size]: the write of step 1 completes and
    the [with] block closes the file; [f.flush()] then raises on the closed
    file, the handler logs the error and [erase_file] returns [False]. Only
    the message of step 1 was emitted, the steps 2 to 4 did not run (no random
    letter was drawn, no further file object exists), and the file holds the
    first [new_size] bytes of its original content. *)
Theorem erase_file_stops_after_step1 p (cb : callback) w d new_size :
  faults w = [] ->
  standard cb ->
  lookup_node p (root w) = Some (File d) ->
  d <> [] ->
  new_size_of (Z.of_nat (length d)) = Ret new_size ->
  exists r',
    set_file p (slice_to d new_size) (root w) = Some r' /\
    lookup_node p r' = Some (File (slice_to d new_size)) /\
    erase_file p cb w
    = (Ret false,
       set_log (log w ++ [(ERROR, "Error erasing " +:+ path_str p +:+ ": "
                                    +:+ "flush of closed file")])
         (set_objects (objects w ++ [FileObject p RB true; FileObject p WB true])
            (set_root r'
               (set_events (events w ++ reported cb [step1_msg p]) w)))).
Proof.
  intros Q C L D N.
  destruct (set_file_is_Some p d (slice_to d new_size) _ L) as [r' S].
  exists r'. split; [done|]. split; [by eapply lookup_set_file|].
  assert (B : erase_file_body p cb w
              = (Raise (ValueError "flush of closed file"),
                 set_objects
                   (objects w ++ [FileObject p RB true; FileObject p WB true])
                   (set_root r'
                      (set_events (events w ++ reported cb [step1_msg p]) w)))).
  { unfold erase_file_body. erewrite bind_Ret by (by apply path_exists_quiet). rewrite L. simpl.
    erewrite bind_Ret by (by apply with_open_read_quiet). cbv beta iota.
    replace (Z.of_nat (length d) =? 0) with false
      by (destruct d; [done|]; symmetry; apply Z.eqb_neq; simpl; lia).
    erewrite bind_Raise; [reflexivity|].
    erewrite step1_closed_file; [| done | done | done | done | done].
    destruct w; simpl. by rewrite <- app_assoc. }
  by rewrite (erase_file_failure _ _ _ _ _ B).
Qed.

Lemma erase_file_stops_after_step1_witness :
  exists r',
    set_file ["docs"; "a.txt"] (encode "012345678") (root sample_world) = Some r' /\
    lookup_node ["docs"; "a.txt"] r' = Some (File (encode "012345678")) /\
    erase_file ["docs"; "a.txt"] (Some emit_progress) sample_world
    = (Ret false,
       set_log [(ERROR, "Error erasing /docs/a.txt: flush of closed file")]
         (set_objects [FileObject ["docs"; "a.txt"] RB true;
                       FileObject ["docs"; "a.txt"] WB true]
            (set_root r'
               (set_events [Progress "Step 1/4: Removing 10% of content from a.txt"]
                  sample_world)))).
Proof.
  apply (erase_file_stops_after_step1 ["docs"; "a.txt"] (Some emit_progress)
           sample_world (encode "0123456789") 9).
  - reflexivity.
  - right; reflexivity.
  - reflexivity.
  - discriminate.
  - vm_compute. reflexivity.
Defined.

(** C1 (what the code does on the claim's input). On the ten-byte file of the
    sample world, with no failing system call, [erase_file] returns [False],
    not [True]; a single progress message was emitted, and the file is left
    with nine bytes instead of none. *)
Theorem erase_file_ten_bytes :
  let '(r, w') := erase_file ["docs"; "a.txt"] (Some emit_progress) sample_world in
  r = Ret false /\
  events w' = [Progress "Step 1/4: Removing 10% of content from a.txt"] /\
  lookup_node ["docs"; "a.txt"] (root w') = Some (File (encode "012345678")) /\
  log w' = [(ERROR, "Error erasing /docs/a.txt: flush of closed file")].
Proof. vm_compute. repeat split. Qed.

(** ** The batch coordinator *)

Lemma file_progress_of_app evs1 evs2 :
  file_progress_of (evs1 ++ evs2) = file_progress_of evs1 ++ file_progress_of evs2.
Proof.
  induction evs1 as [|[] evs1 IH]; simpl; auto. by rewrite IH.
Qed.

Lemma finished_of_app evs1 evs2 :
  finished_of (evs1 ++ evs2) = finished_of evs1 ++ finished_of evs2.
Proof.
  induction evs1 as [|[] evs1 IH]; simpl; auto. by rewrite IH.
Qed.

Lemma progress_only evs :
  Forall (fun e => is_progress e = true) evs ->
  file_progress_of evs = [] /\ finished_of evs = [].
Proof.
  induction 1 as [|[] evs H F IH]; simpl; auto; discriminate.
Qed.

Lemma started_S total i j :
  started total i (S j) = (i + 1, total)%nat :: started total (S i) j.
Proof.
  unfold started. simpl. rewrite Nat.add_0_r. f_equal.
  rewrite <- seq_shift, map_map. apply map_ext. intros t. f_equal. lia.
Qed.

(** A started file is always brought to an outcome. *)
Lemma process_file_returns total i p w :
  exists ok w' evs,
    process_file total i p w = (Ret ok, w') /\
    is_running w' = is_running w /\
    events w' = events w ++ evs /\
    file_progress_of evs = [(i + 1, total)%nat] /\
    finished_of evs = [].
Proof.
  unfold process_file.
  erewrite bind_Ret by reflexivity. erewrite bind_Ret by reflexivity.
  edestruct (erase_file_returns p (Some emit_progress)) as (ok & w' & evs & E & R & V & F);
    [intros msg; apply tame_emit_progress|].
  rewrite E. eexists ok, w', (_ :: _ :: evs).
  split; [done|]. split; [by rewrite R|]. split.
  - rewrite V. simpl. by rewrite <- !app_assoc.
  - simpl. by destruct (progress_only _ F) as [-> ->].
Qed.

Lemma successes_failures oks : (successes oks + failures oks = length oks)%nat.
Proof.
  unfold successes, failures. induction oks as [|[] oks IH]; simpl; lia.
Qed.

Lemma counts_true sc fc oks :
  (sc + successes (true :: oks), fc + failures (true :: oks))%nat
  = (sc + 1 + successes oks, fc + failures oks)%nat.
Proof. unfold successes, failures. simpl. f_equal. lia. Qed.

Lemma counts_false sc fc oks :
  (sc + successes (false :: oks), fc + failures (false :: oks))%nat
  = (sc + successes oks, fc + 1 + failures oks)%nat.
Proof. unfold successes, failures. simpl. f_equal. lia. Qed.

(** The loop of [run], for any behaviour of the interface thread. *)
Lemma run_loop_returns ui total files :
  forall i sc fc w,
  exists oks w' evs,
    run_loop ui total i files sc fc w
    = (Ret (sc + successes oks, fc + failures oks)%nat, w') /\
    (length oks <= length files)%nat /\
    events w' = events w ++ evs /\
    file_progress_of evs = started total i (length oks) /\
    finished_of evs = [].
Proof.
  induction files as [|p rest IH]; intros i sc fc w.
  - exists [], w, []. simpl. unfold successes, failures. simpl.
    rewrite !Nat.add_0_r, app_nil_r. done.
  - simpl. erewrite bind_Ret by reflexivity.
    destruct (is_running w) eqn:R; simpl.
    + destruct (process_file_returns total i p w) as (ok & w1 & evs1 & E1 & R1 & V1 & P1 & F1).
      erewrite bind_Ret by done.
      set (w2 := snd (ui_thread ui i w1)).
      assert (U : ui_thread ui i w1 = (Ret tt, w2) /\ events w2 = events w1).
      { unfold w2, ui_thread. by destruct (ui i). }
      destruct U as [U V2]. erewrite bind_Ret by done.
      destruct ok.
      * destruct (IH (S i) (sc + 1)%nat fc w2) as (oks & w' & evs & E & L & V & P & F).
        exists (true :: oks), w', (evs1 ++ evs). rewrite E.
        split; [by rewrite counts_true|].
        split; [simpl; lia|]. split; [by rewrite V, V2, V1, app_assoc|].
        rewrite file_progress_of_app, finished_of_app, P1, F1, P, F.
        simpl. by rewrite started_S.
      * destruct (IH (S i) sc (fc + 1)%nat w2) as (oks & w' & evs & E & L & V & P & F).
        exists (false :: oks), w', (evs1 ++ evs). rewrite E.
        split; [by rewrite counts_false|].
        split; [simpl; lia|]. split; [by rewrite V, V2, V1, app_assoc|].
        rewrite file_progress_of_app, finished_of_app, P1, F1, P, F.
        simpl. by rewrite started_S.
    + erewrite bind_Ret by reflexivity.
      eexists [], _, [_]. unfold successes, failures. simpl.
      rewrite !Nat.add_0_r. repeat split; auto. lia.
Qed.

(** The loop of [run] when [stop] is called once [j] files are done. *)
Lemma run_loop_cancelled ui total :
  forall j files i sc fc w,
  (j < length files)%nat ->
  stop_after ui i j w ->
  exists oks w1 evs,
    process_files total i (take j files) w = (Ret oks, w1) /\
    length oks = j /\
    events w1 = events w ++ evs /\
    file_progress_of evs = started total i j /\
    finished_of evs = [] /\
    run_loop ui total i files sc fc w
    = (Ret (sc + successes oks, fc + failures oks)%nat,
       set_events (events w1 ++ [Progress "Erasing stopped by user"])
         (set_is_running false w1)).
Proof.
  induction j as [|j IH]; intros files i sc fc w Hj Hs.
  - destruct files as [|p rest]; [simpl in Hj; lia|].
    simpl in Hs. exists [], w, []. simpl. rewrite app_nil_r.
    repeat split; auto.
    erewrite bind_Ret by reflexivity. rewrite Hs. simpl.
    erewrite bind_Ret by reflexivity.
    unfold successes, failures. simpl. rewrite !Nat.add_0_r.
    destruct w; simpl in *. by subst.
  - destruct files as [|p rest]; [simpl in Hj; lia|].
    destruct Hs as (R & Hno & Hyes). simpl in Hj.
    destruct (process_file_returns total i p w)
      as (ok & w1 & evs1 & E1 & R1 & V1 & P1 & F1).
    assert (exists w2,
               ui_thread ui i w1 = (Ret tt, w2) /\ stop_after ui (S i) j w2 /\
               process_files total (S i) (take j rest) w2
               = (let '(r, w') := process_files total (S i) (take j rest) w1 in
                  (r, if ui i then set_is_running false w' else w')) /\
               (ui i = true -> j = 0%nat) /\
               events w2 = events w1)
      as (w2 & U & Hs2 & Pf & Hj0 & V2).
    { unfold ui_thread. destruct j as [|j].
      - rewrite Nat.add_0_r in Hyes. rewrite Hyes. eexists. by simpl.
      - assert (ui i = false) as ->
          by (rewrite <- (Nat.add_0_r i); apply Hno; lia).
        exists w1. split; [done|]. split; [|split; [|done]].
        + split; [congruence|]. split.
          * intros t Ht. replace (S i + t)%nat with (i + S t)%nat by lia.
            apply Hno. lia.
          * by replace (S i + j)%nat with (i + S j)%nat by lia.
        + by destruct (process_files _ _ _ w1). }
    assert (Run :
               run_loop ui total i (p :: rest) sc fc w
               = run_loop ui total (S i) rest
                   (if ok then (sc + 1)%nat else sc)
                   (if ok then fc else (fc + 1)%nat) w2).
    { simpl. erewrite bind_Ret by reflexivity. rewrite R. simpl.
      erewrite bind_Ret by done. erewrite bind_Ret by done. by destruct ok. }
    rewrite Run.
    destruct (IH rest (S i) (if ok then (sc + 1)%nat else sc)
                (if ok then fc else (fc + 1)%nat) w2 ltac:(lia) Hs2)
      as (oks & w3 & evs & E & L & V & P & F & Rn).
    rewrite Rn. rewrite Pf in E.
    destruct (process_files total (S i) (take j rest) w1) as [r w4] eqn:E4.
    injection E as -> <-.
    exists (ok :: oks), w4, (evs1 ++ if ui i then [] else evs).
    simpl. erewrite bind_Ret by done. erewrite bind_Ret by done. simpl.
    split; [done|]. split; [by rewrite L|].
    destruct (ui i) eqn:Ui.
    + (* the last file before the stop *)
      rewrite (Hj0 eq_refl) in *. simpl in E4. injection E4 as <- <-.
      simpl in *. rewrite app_nil_r.
      split; [done|]. split; [by rewrite P1, started_S|]. split; [done|].
      destruct ok; [by rewrite counts_true | by rewrite counts_false].
    + split; [by rewrite V, V2, V1, app_assoc|].
      rewrite file_progress_of_app, finished_of_app, P1, F1, P, F.
      split; [by rewrite started_S|]. split; [done|].
      destruct ok; [by rewrite counts_true | by rewrite counts_false].
Qed.

(** C4. A run over [k] files, whatever the interface thread does and whichever
    system calls fail: the files number 1 to [j] are started once each and
    in order, for some [j <= k], and none of the [k - j] others is; each
    started file yields one outcome, so that the success and failure counts
    add up to [j]; and [finished_signal] is emitted exactly once, as the last
    event of the run, with these two counts. *)
Theorem run_accounts_for_every_file files ui w :
  exists oks w' evs,
    run files ui w = (Ret tt, w') /\
    (length oks <= length files)%nat /\
    (successes oks + failures oks = length oks)%nat /\
    (length oks + (length files - length oks) = length files)%nat /\
    events w' = events w ++ evs ++ [Finished (successes oks) (failures oks)] /\
    file_progress_of evs = started (length files) 0 (length oks) /\
    finished_of evs = [] /\
    finished_of (evs ++ [Finished (successes oks) (failures oks)])
    = [(successes oks, failures oks)].
Proof.
  destruct (run_loop_returns ui (length files) files 0%nat 0%nat 0%nat w)
    as (oks & w' & evs & E & L & V & P & F).
  exists oks, (set_events (events w' ++ [Finished (successes oks) (failures oks)]) w'), evs.
  split; [unfold run; by erewrite bind_Ret by done|].
  split; [done|]. split; [apply successes_failures|]. split; [lia|].
  split; [simpl; by rewrite V, app_assoc|]. split; [done|]. split; [done|].
  by rewrite finished_of_app, F.
Qed.

(** C5. In a run over [k] files where [stop] is called once file [j] is done
    ([0 <= j < k]; for [j = 0], before the first file), exactly the first [j]
    files are processed: the run ends in the world reached by erasing these
    [j] files one after the other, the files number 1 to [j] and no others
    were announced, the remaining [k - j] files are not touched at all, and
    after the message of the stop [finished_signal] carries counts that add
    up to [j]. *)
Theorem run_cancelled_after files ui w j :
  (j < length files)%nat ->
  stop_after ui 0 j w ->
  exists oks w1 evs,
    process_files (length files) 0 (take j files) w = (Ret oks, w1) /\
    length oks = j /\
    (successes oks + failures oks = j)%nat /\
    events w1 = events w ++ evs /\
    file_progress_of evs = started (length files) 0 j /\
    finished_of evs = [] /\
    run files ui w
    = (Ret tt,
       set_events (events w1 ++ [Progress "Erasing stopped by user";
                                 Finished (successes oks) (failures oks)])
         (set_is_running false w1)).
Proof.
  intros Hj Hs.
  destruct (run_loop_cancelled ui (length files) j files 0%nat 0%nat 0%nat w Hj Hs)
    as (oks & w1 & evs & E & L & V & P & F & R).
  exists oks, w1, evs. split; [done|]. split; [done|].
  split; [by rewrite successes_failures|]. split; [done|]. split; [done|].
  split; [done|]. unfold run. erewrite bind_Ret by done. simpl.
  unfold emit, modify. simpl. by rewrite <- app_assoc.
Qed.

Lemma run_cancelled_after_witness :
  exists oks w1 evs,
    process_files 3 0 [["docs"; "a.txt"]; ["empty"]] sample_world = (Ret oks, w1) /\
    length oks = 2%nat /\
    (successes oks + failures oks = 2)%nat /\
    events w1 = events sample_world ++ evs /\
    file_progress_of evs = started 3 0 2 /\
    finished_of evs = [] /\
    run [["docs"; "a.txt"]; ["empty"]; ["docs"; "b.txt"]] (Nat.eqb 1) sample_world
    = (Ret tt,
       set_events (events w1 ++ [Progress "Erasing stopped by user";
                                 Finished (successes oks) (failures oks)])
         (set_is_running false w1)).
Proof.
  apply (run_cancelled_after
           [["docs"; "a.txt"]; ["empty"]; ["docs"; "b.txt"]] (Nat.eqb 1)
           sample_world 2).
  - simpl. lia.
  - simpl. split; [reflexivity|]. split; [|reflexivity].
    intros t Ht. destruct t; [reflexivity | lia].
Defined.

(** ** The target resolver *)

Lemma lookup_node_app p s r :
  lookup_node (p ++ s) r
  = match lookup_node p r with Some n => lookup_node s n | None => None end.
Proof.
  revert r. induction p as [|c p IH]; intros r; simpl; [done|].
  destruct r as [|es]; [done|]. by destruct (assoc c es).
Qed.

Lemma assoc_In c es ch : assoc c es = Some ch -> In (c, ch) es.
Proof.
  induction es as [|[c' n'] es IH]; simpl; [done|].
  destruct (String.eqb c c') eqn:E; [|auto].
  apply String.eqb_eq in E as ->. intros [= ->]. by left.
Qed.

(** The inner [fix] of [rglob_star], seen as a list operation. *)
Lemma in_sub_walk here es q :
  In q ((fix sub (l : list (string * node)) : list path :=
           match l with
           | [] => []
           | (c, ch) :: l' => rglob_star (here ++ [c]) ch ++ sub l'
           end) es)
  <-> exists c ch, In (c, ch) es /\ In q (rglob_star (here ++ [c]) ch).
Proof.
  induction es as [|[c ch] es IH]; simpl.
  - split; [done | by intros (? & ? & [] & _)].
  - rewrite in_app_iff, IH. split.
    + intros [H | (c' & ch' & H1 & H2)]; [exists c, ch; auto | exists c', ch'; auto].
    + intros (c' & ch' & [[= -> ->] | H1] & H2); [auto | right; eauto].
Qed.

(** Everything [rglob] yields lies strictly below the starting point. *)
Lemma rglob_star_below n :
  forall here q, In q (rglob_star here n) -> exists s, s <> [] /\ q = here ++ s.
Proof.
  induction n as [d|es IH] using node_ind_entries; intros here q; simpl; [done|].
  rewrite in_app_iff, in_map_iff, in_sub_walk.
  intros [([c ch] & <- & _) | (c & ch & Hin & Hq)].
  - by exists [c].
  - rewrite List.Forall_forall in IH.
    destruct (IH (c, ch) Hin _ _ Hq) as (s & Hs & ->).
    exists (c :: s). split; [done|]. by rewrite <- app_assoc.
Qed.

(** Everything strictly below the starting point is yielded. *)
Lemma rglob_star_complete s :
  forall n here x,
  s <> [] -> lookup_node s n = Some x -> In (here ++ s) (rglob_star here n).
Proof.
  induction s as [|c s IH]; intros n here x Hs H; [done|].
  simpl in H. destruct n as [|es]; [done|].
  destruct (assoc c es) as [ch|] eqn:A; [|done]. apply assoc_In in A.
  simpl. rewrite in_app_iff, in_map_iff, in_sub_walk.
  destruct s as [|c' s'].
  - left. by exists (c, ch).
  - right. exists c, ch. split; [done|].
    replace (here ++ c :: c' :: s') with ((here ++ [c]) ++ c' :: s')
      by by rewrite <- app_assoc.
    by eapply IH.
Qed.

Lemma keep_files_eq found :
  forall all_files w,
  faults w = [] ->
  keep_files found all_files w
  = (Ret (all_files ++ List.filter (file_at (root w)) found), w).
Proof.
  induction found as [|q found IH]; intros acc w Q; simpl.
  - by rewrite app_nil_r.
  - erewrite bind_Ret by (by apply is_file_quiet).
    destruct (file_at (root w) q); rewrite IH by done; [|done].
    by rewrite <- app_assoc.
Qed.

Lemma get_all_files_loop_eq paths :
  forall all_files w,
  faults w = [] ->
  get_all_files_loop paths all_files w
  = (Ret (all_files ++ flat_map (contribution (root w)) paths), w).
Proof.
  induction paths as [|p paths IH]; intros acc w Q; simpl.
  - by rewrite app_nil_r.
  - erewrite bind_Ret by (by apply is_file_quiet).
    assert (C : contribution (root w) p
                = match lookup_node p (root w) with
                  | Some (File _) => [p]
                  | Some (Dir es) =>
                      List.filter (file_at (root w)) (rglob_star p (Dir es))
                  | None => []
                  end) by done.
    unfold file_at at 1. destruct (lookup_node p (root w)) as [[d|es]|] eqn:L.
    + rewrite IH, C by done. by rewrite <- app_assoc.
    + erewrite bind_Ret by (by apply is_dir_quiet). rewrite L.
      erewrite bind_Ret by (by apply rglob_quiet). rewrite L.
      erewrite bind_Ret by (by apply keep_files_eq).
      rewrite IH, C by done. by rewrite <- app_assoc.
    + erewrite bind_Ret by (by apply is_dir_quiet). rewrite L.
      by rewrite IH, C by done.
Qed.

Lemma get_all_files_eq paths w :
  faults w = [] ->
  get_all_files paths w = (Ret (flat_map (contribution (root w)) paths), w).
Proof. apply get_all_files_loop_eq. Qed.


Lemma contribution_dir r p es q :
  lookup_node p r = Some (Dir es) ->
  In q (contribution r p)
  <-> exists s d, s <> [] /\ q = p ++ s /\ lookup_node q r = Some (File d).
Proof.
  intros L. unfold contribution. rewrite L, filter_In. split.
  - intros [H F]. destruct (rglob_star_below _ _ _ H) as (s & Hs & ->).
    unfold file_at in F.
    destruct (lookup_node (p ++ s) r) as [[d|]|] eqn:E; try done. by exists s, d.
  - intros (s & d & Hs & -> & H). split.
    + rewrite lookup_node_app, L in H. by eapply rglob_star_complete.
    + unfold file_at. by rewrite H.
Qed.







(** ** The pattern of the third pass *)

Lemma length_concat_replicate {A} (b : list A) n :
  length (concat (replicate n b)) = (n * length b)%nat.
Proof. induction n as [|n IH]; simpl; [done|]. rewrite length_app. lia. Qed.

Lemma lookup_concat_replicate {A} (b : list A) n i :
  (0 < length b)%nat ->
  (i < n * length b)%nat ->
  concat (replicate n b) !! i = b !! (i mod length b)%nat.
Proof.
  intros Hb. revert i. induction n as [|n IH]; intros i Hi; simpl in *; [lia|].
  destruct (decide (i < length b)%nat) as [Hlt|Hge].
  - rewrite lookup_app_l by done. by rewrite Nat.mod_small.
  - rewrite lookup_app_r by lia. rewrite IH by lia. f_equal.
    replace i with ((i - length b) + 1 * length b)%nat at 2 by lia.
    by rewrite Nat.Div0.mod_add.
Qed.

Lemma hello_repetitions (m : nat) :
  Z.to_nat (Z.of_nat m / 12 + 1) = S (m / 12).
Proof.
  replace 12 with (Z.of_nat 12) by done. rewrite <- Nat2Z.inj_div. lia.
Qed.

Lemma hello_data_length (m : nat) : length (hello_data (Z.of_nat m)) = m.
Proof.
  unfold hello_data, slice_to, bytes_mul.
  replace (0 <=? Z.of_nat m) with true by (symmetry; apply Z.leb_le; lia).
  rewrite Nat2Z.id, length_take, length_concat_replicate, hello_repetitions.
  change (length (encode "hello world ")) with 12%nat.
  pose proof (Nat.div_mod_eq m 12). pose proof (Nat.mod_upper_bound m 12). lia.
Qed.

Lemma hello_data_lookup (m i : nat) :
  (i < m)%nat ->
  hello_data (Z.of_nat m) !! i = encode "hello world " !! (i mod 12)%nat.
Proof.
  intros Hi. unfold hello_data, slice_to, bytes_mul.
  replace (0 <=? Z.of_nat m) with true by (symmetry; apply Z.leb_le; lia).
  rewrite Nat2Z.id, lookup_take_lt by done.
  rewrite lookup_concat_replicate; [done | simpl; lia |].
  rewrite hello_repetitions. change (length (encode "hello world ")) with 12%nat.
  pose proof (Nat.div_mod_eq m 12). pose proof (Nat.mod_upper_bound m 12). lia.
Qed.

(** The third pass, run on an existing file with no failing system call,
    stores its pattern. *)
Lemma step3_writes_hello_data p cb new_size w d :
  faults w = [] ->
  standard cb ->
  lookup_node p (root w) = Some (File d) ->
  exists r',
    set_file p (hello_data new_size) (root w) = Some r' /\
    lookup_node p r' = Some (File (hello_data new_size)) /\
    step3 p cb new_size w
    = (Ret tt,
       set_log (log w ++ [(INFO, "Step 3 complete: Overwrote with 'hello world' in "
                                   +:+ path_str p)])
         (set_objects (objects w ++ [FileObject p WB true])
            (set_root r'
               (set_events (events w ++ reported cb [step3_msg p]) w)))).
Proof.
  intros Q C L.
  destruct (set_file_is_Some p d (hello_data new_size) _ L) as [r' S].
  exists r'. split; [done|]. split; [by eapply lookup_set_file|].
  unfold step3.
  erewrite bind_Ret by (by apply notify_standard).
  erewrite bind_Ret by (by eapply with_open_write_sync_quiet).
  reflexivity.
Qed.

(** C8. For every size [m], the buffer of the third pass has exactly [m]
    bytes, and its byte at every position [i < m] is the byte at position
    [i mod 12] of the twelve bytes of "hello world "; the third pass, run on an
    existing file with no failing system call, leaves the file with exactly
    this buffer as its content. *)
Theorem hello_data_is_the_pattern (m : nat) :
  length (encode "hello world ") = 12%nat /\
  length (hello_data (Z.of_nat m)) = m /\
  (forall i, (i < m)%nat ->
             hello_data (Z.of_nat m) !! i = encode "hello world " !! (i mod 12)%nat) /\
  (forall p cb w d,
     faults w = [] ->
     standard cb ->
     lookup_node p (root w) = Some (File d) ->
     exists w',
       step3 p cb (Z.of_nat m) w = (Ret tt, w') /\
       lookup_node p (root w') = Some (File (hello_data (Z.of_nat m)))).
Proof.
  split; [done|]. split; [apply hello_data_length|].
  split; [apply hello_data_lookup|].
  intros p cb w d Q C L.
  destruct (step3_writes_hello_data p cb (Z.of_nat m) w d Q C L) as (r' & _ & R & E).
  eexists. split; [exact E|]. exact R.
Qed.

Lemma hello_data_is_the_pattern_witness :
  hello_data 14 !! 13%nat = Some "e"%byte /\
  exists w',
    step3 ["docs"; "a.txt"] (Some emit_progress) 14 sample_world = (Ret tt, w') /\
    lookup_node ["docs"; "a.txt"] (root w') = Some (File (encode "hello world he")).
Proof.
  destruct (hello_data_is_the_pattern 14) as (_ & _ & HL & HS).
  split.
  - apply (HL 13%nat). lia.
  - apply (HS ["docs"; "a.txt"] (Some emit_progress) sample_world (encode "0123456789")).
    + reflexivity.
    + right; reflexivity.
    + reflexivity.
Defined.

(** ** Floating point *)

Lemma digits2_pos_bounds p :
  2 ^ (Z.pos (digits2_pos p) - 1) <= Z.pos p < 2 ^ Z.pos (digits2_pos p).
Proof.
  induction p as [p IH|p IH|]; simpl digits2_pos.
  - rewrite Pos2Z.inj_succ, Z.pow_succ_r by lia.
    replace (Z.succ (Z.pos (digits2_pos p)) - 1)
      with (Z.succ (Z.pos (digits2_pos p) - 1)) by lia.
    rewrite Z.pow_succ_r by lia. lia.
  - rewrite Pos2Z.inj_succ, Z.pow_succ_r by lia.
    replace (Z.succ (Z.pos (digits2_pos p)) - 1)
      with (Z.succ (Z.pos (digits2_pos p) - 1)) by lia.
    rewrite Z.pow_succ_r by lia. lia.
  - simpl. lia.
Qed.

(** The number of binary digits is determined by the two surrounding powers. *)
Lemma digits2_pos_unique p k :
  2 ^ (k - 1) <= Z.pos p < 2 ^ k -> Z.pos (digits2_pos p) = k.
Proof.
  intros [Hl Hu]. pose proof (digits2_pos_bounds p) as [Dl Du].
  assert (0 < k).
  { destruct (Z_lt_le_dec 0 k) as [|Hk]; [done|]. exfalso.
    destruct (Z.eq_dec k 0) as [->|]; [simpl in Hu; lia|].
    rewrite Z.pow_neg_r in Hu by lia. lia. }
  destruct (Z.lt_trichotomy (Z.pos (digits2_pos p)) k) as [Hlt | [Heq | Hgt]]; [|done|].
  - assert (2 ^ Z.pos (digits2_pos p) <= 2 ^ (k - 1)) by (apply Z.pow_le_mono_r; lia). lia.
  - assert (2 ^ k <= 2 ^ (Z.pos (digits2_pos p) - 1)) by (apply Z.pow_le_mono_r; lia). lia.
Qed.

Lemma iter_xO p k : Z.pos (Pos.iter xO p k) = Z.pos p * 2 ^ Z.pos k.
Proof.
  induction k as [|k IH] using Pos.peano_ind.
  - simpl. lia.
  - rewrite Pos.iter_succ, Pos2Z.inj_succ, Z.pow_succ_r by lia.
    rewrite Pos2Z.inj_xO, IH. lia.
Qed.

Lemma shr_1_nonneg mrs :
  0 <= shr_m mrs ->
  shr_m (shr_1 mrs) = shr_m mrs / 2 /\ shr_r (shr_1 mrs) = Z.odd (shr_m mrs).
Proof.
  destruct mrs as [m r s]. simpl. intros H.
  destruct m as [|[p|p|]|p]; try lia; simpl; split; try done.
  - rewrite Pos2Z.inj_xI. apply Z.div_unique with 1; lia.
  - rewrite Pos2Z.inj_xO. apply Z.div_unique with 0; lia.
Qed.

Lemma iter_shr_1 p :
  forall mrs,
  0 <= shr_m mrs ->
  shr_m (SpecFloat.iter_pos shr_1 p mrs) = shr_m mrs / 2 ^ Z.pos p /\
  shr_r (SpecFloat.iter_pos shr_1 p mrs) = Z.odd (shr_m mrs / 2 ^ (Z.pos p - 1)).
Proof.
  assert (D : forall m a b, 0 <= a -> 0 <= b -> m / 2 ^ a / 2 ^ b = m / 2 ^ (a + b)).
  { intros m a b Ha Hb. rewrite Z.pow_add_r by done.
    apply Z.div_div; [apply Z.pow_nonzero; lia | apply Z.pow_pos_nonneg; lia]. }
  induction p as [p IH|p IH|]; intros mrs H; simpl SpecFloat.iter_pos.
  - destruct (shr_1_nonneg mrs H) as [M1 R1].
    assert (H1 : 0 <= shr_m (shr_1 mrs)) by (rewrite M1; apply Z.div_pos; lia).
    destruct (IH _ H1) as [M2 R2].
    assert (H2 : 0 <= shr_m (SpecFloat.iter_pos shr_1 p (shr_1 mrs)))
      by (rewrite M2; apply Z.div_pos; [lia | apply Z.pow_pos_nonneg; lia]).
    destruct (IH _ H2) as [M3 R3]. rewrite M3, R3, M2, M1.
    change (shr_m mrs / 2) with (shr_m mrs / 2 ^ 1).
    rewrite !D by lia.
    change (Z.pos p~1) with (2 * Z.pos p + 1).
    split; [f_equal; f_equal; lia | f_equal; f_equal; f_equal; lia].
  - destruct (IH _ H) as [M2 R2].
    assert (H2 : 0 <= shr_m (SpecFloat.iter_pos shr_1 p mrs))
      by (rewrite M2; apply Z.div_pos; [lia | apply Z.pow_pos_nonneg; lia]).
    destruct (IH _ H2) as [M3 R3]. rewrite M3, R3, M2.
    rewrite !D by lia.
    change (Z.pos p~1) with (2 * Z.pos p + 1). change (Z.pos p~0) with (2 * Z.pos p).
    split; [f_equal; f_equal; lia | f_equal; f_equal; f_equal; lia].
  - destruct (shr_1_nonneg mrs H) as [M1 R1]. rewrite M1, R1. simpl.
    by rewrite Z.div_1_r.
Qed.

(** [shr_fexp] on an exact mantissa of at least 53 digits: the digits beyond
    the 53rd are shifted out. *)
Lemma shr_fexp_exact p e :
  let s := Z.pos (digits2_pos p) - 53 in
  0 <= s ->
  -1074 <= e + s ->
  shr_fexp 53 1024 (Z.pos p) e loc_Exact
  = shr (Build_shr_record (Z.pos p) false false) e s.
Proof.
  intros s Hs He. unfold shr_fexp, fexp, emin. simpl Zdigits2. simpl shr_record_of_loc.
  f_equal. fold s. lia.
Qed.

Lemma shr_exact_spec p e s :
  0 <= s ->
  exists mrs,
    shr (Build_shr_record (Z.pos p) false false) e s = (mrs, e + s) /\
    shr_m mrs = Z.pos p / 2 ^ s /\
    (shr_r mrs = true -> 0 < s /\ Z.odd (Z.pos p / 2 ^ (s - 1)) = true).
Proof.
  intros Hs. destruct s as [|sp|sp]; [| |lia].
  - eexists. simpl. rewrite Z.add_0_r, Z.div_1_r. repeat split; done.
  - destruct (iter_shr_1 sp (Build_shr_record (Z.pos p) false false)) as [M R];
      [simpl; lia|].
    eexists. split; [reflexivity|]. split; [exact M|].
    rewrite R. simpl shr_m. intros ->. split; [lia | done].
Qed.

(** Rounding to nearest moves the shifted mantissa up by at most one, and
    only when the first dropped bit is set. *)
Lemma round_nearest_even_spec mrs :
  let m1 := round_nearest_even (shr_m mrs) (loc_of_shr_record mrs) in
  m1 = shr_m mrs \/ (m1 = shr_m mrs + 1 /\ shr_r mrs = true).
Proof.
  destruct mrs as [m [] []]; simpl; auto. destruct (Z.even m); auto.
Qed.

Lemma binary_round_aux_exact p e :
  let s := Z.pos (digits2_pos p) - 53 in
  0 <= s ->
  -1074 <= e + s ->
  e + s + 1 <= 971 ->
  exists m1 m2 e2,
    binary_round_aux 53 1024 false (Z.pos p) e loc_Exact = S754_finite false m2 e2 /\
    ((Z.pos m2 = m1 /\ e2 = e + s /\ m1 < 2 ^ 53) \/
     (Z.pos m2 * 2 = m1 /\ e2 = e + s + 1 /\ m1 = 2 ^ 53)) /\
    Z.pos p / 2 ^ s <= m1 /\
    2 * m1 * 2 ^ s <= 2 * Z.pos p + 2 ^ s /\
    (s = 0 -> m1 = Z.pos p).
Proof.
  intros s Hs He Hmax.
  pose proof (digits2_pos_bounds p) as [Dl Du].
  assert (E52 : 2 ^ (Z.pos (digits2_pos p) - 1) = 2 ^ 52 * 2 ^ s)
    by (rewrite <- Z.pow_add_r by lia; f_equal; unfold s; lia).
  assert (E53 : 2 ^ Z.pos (digits2_pos p) = 2 ^ 53 * 2 ^ s)
    by (rewrite <- Z.pow_add_r by lia; f_equal; unfold s; lia).
  rewrite E52 in Dl. rewrite E53 in Du.
  assert (Hpow : 0 < 2 ^ s) by (apply Z.pow_pos_nonneg; lia).
  destruct (shr_exact_spec p e s Hs) as (mrs & Sh & M & R).
  set (m0 := Z.pos p / 2 ^ s) in *.
  assert (B0 : 2 ^ 52 <= m0 < 2 ^ 53).
  { unfold m0. split.
    - apply Z.div_le_lower_bound; lia.
    - apply Z.div_lt_upper_bound; lia. }
  assert (F0 : m0 * 2 ^ s <= Z.pos p).
  { unfold m0. rewrite Z.mul_comm. apply Z.mul_div_le. lia. }
  set (m1 := round_nearest_even (shr_m mrs) (loc_of_shr_record mrs)).
  assert (N : 2 * m1 * 2 ^ s <= 2 * Z.pos p + 2 ^ s /\ m0 <= m1 <= m0 + 1 /\
              (s = 0 -> m1 = Z.pos p)).
  { destruct (round_nearest_even_spec mrs) as [H1 | [H1 R1]]; fold m1 in H1.
    - rewrite H1, M. split; [nia|]. split; [lia|].
      intros Hs0. unfold m0. rewrite Hs0. apply Z.div_1_r.
    - rewrite H1, M. destruct (R R1) as [Hs' Odd]. split; [|split; [lia|lia]].
      assert (E : 2 ^ s = 2 * 2 ^ (s - 1)).
      { rewrite <- Z.pow_succ_r by lia. f_equal. lia. }
      assert (Hh : 0 < 2 ^ (s - 1)) by (apply Z.pow_pos_nonneg; lia).
      set (h := 2 ^ (s - 1)) in *. set (a := Z.pos p / h) in *.
      assert (Ha : a * h <= Z.pos p)
        by (unfold a; rewrite Z.mul_comm; apply Z.mul_div_le; lia).
      assert (Hm : m0 = a / 2).
      { unfold m0, a. rewrite E, Z.mul_comm. symmetry. apply Z.div_div; lia. }
      rewrite Z.odd_spec in Odd. destruct Odd as [k Hk].
      assert (a / 2 = k) by (rewrite Hk; symmetry; apply Z.div_unique with 1; lia).
      nia. }
  destruct N as (N1 & N2 & N3).
  exists m1.
  unfold binary_round_aux. rewrite shr_fexp_exact by done. fold s. rewrite Sh.
  fold m1.
  destruct m1 as [|q|q] eqn:Eq; [lia| |lia].
  destruct (Z_lt_le_dec (Z.pos q) (2 ^ 53)) as [Hlt | Hge].
  - (* no carry: the result has 53 digits already *)
    assert (Dq : Z.pos (digits2_pos q) = 53) by (apply digits2_pos_unique; lia).
    rewrite shr_fexp_exact by (rewrite Dq; lia). rewrite Dq. simpl shr.
    simpl shr_m. cbv iota beta.
    replace (e + s <=? 1024 - 53) with true by (symmetry; apply Z.leb_le; lia).
    exists q, (e + s). split; [done|]. split; [by left|].
    split; [lia|]. by split.
  - (* the rounding carried into a 54th digit *)
    assert (q = 9007199254740992%positive) as -> by lia.
    rewrite shr_fexp_exact by (change (digits2_pos 9007199254740992) with 54%positive; lia).
    change (Z.pos (digits2_pos 9007199254740992) - 53) with 1.
    unfold shr. simpl SpecFloat.iter_pos. simpl shr_m. cbv iota beta.
    replace (e + s + 1 <=? 1024 - 53) with true by (symmetry; apply Z.leb_le; lia).
    eexists _, (e + s + 1). split; [done|]. split; [right; done|].
    split; [lia|]. by split.
Qed.

(** [float(n)] is exact for an integer of at most 52 binary digits: the
    mantissa is [n] shifted to 53 digits. *)
Lemma of_int_exact n :
  let d := Z.pos (digits2_pos n) in
  d <= 52 ->
  exists mz,
    Float.of_int (Z.pos n) = S754_finite false mz (d - 53) /\
    Z.pos mz = Z.pos n * 2 ^ (53 - d) /\
    2 ^ 52 <= Z.pos mz < 2 ^ 53.
Proof.
  intros d Hd. pose proof (digits2_pos_bounds n) as [Dl Du]. fold d in Dl, Du.
  unfold Float.of_int, binary_normalize, binary_round, shl_align, fexp, emin.
  fold d. unfold Float.prec, Float.emax.
  replace (Z.max (d + 0 - 53) (3 - 1024 - 53) - 0) with (Z.neg (Z.to_pos (53 - d)))
    by (rewrite Z.max_l by lia; rewrite <- Pos2Z.opp_pos, Z2Pos.id by lia; lia).
  rewrite Z.max_l by lia.
  set (mz := Pos.iter xO n (Z.to_pos (53 - d))).
  assert (Ez : Z.pos mz = Z.pos n * 2 ^ (53 - d))
    by (unfold mz; rewrite iter_xO, Z2Pos.id by lia; done).
  assert (T : 2 ^ (53 - d) * 2 ^ (d - 1) = 2 ^ 52)
    by (rewrite <- Z.pow_add_r by lia; f_equal; lia).
  assert (T' : 2 ^ (53 - d) * 2 ^ d = 2 ^ 53)
    by (rewrite <- Z.pow_add_r by lia; f_equal; lia).
  assert (Hp : 0 < 2 ^ (53 - d)) by (apply Z.pow_pos_nonneg; lia).
  assert (Bz : 2 ^ 52 <= Z.pos mz < 2 ^ 53) by (rewrite Ez; nia).
  assert (Dz : Z.pos (digits2_pos mz) = 53) by (apply digits2_pos_unique; lia).
  destruct (binary_round_aux_exact mz (d + 0 - 53)) as (m1 & m2 & e2 & E & C & _ & _ & X);
    [rewrite Dz; lia .. |].
  rewrite Dz in *. specialize (X eq_refl). subst m1.
  exists mz. rewrite E.
  destruct C as [(C1 & C2 & _) | (C1 & C2 & C3)]; [|lia].
  injection C1 as ->. split; [f_equal; lia|]. done.
Qed.

(** The product [n * 0.9], truncated, is the exact nine tenths of [n] as long
    as the product stays below [2^50], where the floats are an eighth apart at
    most. *)
Lemma new_size_of_exact_small n :
  0 < n <= 1250999896491804 -> new_size_of n = Ret (9 * n / 10).
Proof.
  intros [Hn0 Hn]. destruct n as [|n|n]; try lia.
  pose proof (digits2_pos_bounds n) as [Dl Du].
  set (d := Z.pos (digits2_pos n)) in *.
  assert (Hd : d <= 51).
  { destruct (Z_lt_le_dec 51 d) as [H|]; [|done].
    assert (2 ^ 51 <= 2 ^ (d - 1)) by (apply Z.pow_le_mono_r; lia). lia. }
  destruct (of_int_exact n) as (mz & Eo & Ez & Bz); [fold d; lia|]. fold d in Eo, Ez.
  unfold new_size_of, int_mul_float. rewrite Eo.
  unfold Float.mul, Float.lit_0_9, SFmul. simpl xorb.
  set (P := (mz * 8106479329266893)%positive).
  assert (EP : Z.pos P = Z.pos mz * 8106479329266893) by done.
  pose proof (digits2_pos_bounds P) as [Pl Pu].
  set (dP := Z.pos (digits2_pos P)) in *.
  assert (HdP : dP = 105 \/ dP = 106).
  { assert (2 ^ 104 <= Z.pos P < 2 ^ 106) by lia.
    destruct (Z_lt_le_dec dP 105) as [H1|H1].
    - assert (2 ^ dP <= 2 ^ 104) by (apply Z.pow_le_mono_r; lia). lia.
    - destruct (Z_lt_le_dec 106 dP) as [H2|H2]; [|lia].
      assert (2 ^ 106 <= 2 ^ (dP - 1)) by (apply Z.pow_le_mono_r; lia). lia. }
  destruct (binary_round_aux_exact P (d - 53 + -53))
    as (m1 & m2 & e2 & E & C & Lo & Hi & _); [fold dP; lia .. |].
  fold dP in E, C, Lo, Hi. unfold Float.prec, Float.emax. rewrite E.
  (* the quantities of the argument, all scaled by [T] *)
  assert (HT : 8 <= 2 ^ (53 - d) \/ 2 ^ (53 - d) = 4).
  { destruct (Z_lt_le_dec d 51) as [H|H].
    - left. change 8 with (2 ^ 3). apply Z.pow_le_mono_r; lia.
    - right. by replace d with 51 by lia. }
  set (T := 2 ^ (53 - d)) in *.
  set (q := 9 * Z.pos n / 10).
  pose proof (Z.div_mod (9 * Z.pos n) 10 ltac:(lia)) as Hq. fold q in Hq.
  pose proof (Z.mod_pos_bound (9 * Z.pos n) 10 ltac:(lia)) as Hr.
  set (r := (9 * Z.pos n) mod 10) in *.
  set (Y := q * T). set (U := r * T).
  assert (HXY : 9 * Z.pos mz = 10 * Y + U) by (unfold Y, U; rewrite Ez; nia).
  assert (HU : 0 <= U <= 9 * T) by (unfold U; nia).
  assert (HY : 0 <= Y).
  { unfold Y. apply Z.mul_nonneg_nonneg; [|lia].
    unfold q. apply Z.div_pos; lia. }
  (* the integer part of the result *)
  assert (K : exists k c, 0 < k /\ - (d - 53 + -53 + (dP - 53)) = k /\
                          2 ^ k = T * c /\ 2 ^ (dP - 53) * c = 2 ^ 53 /\
                          (c = 1 \/ c = 2)).
  { exists (106 - d - (dP - 53)), (2 ^ (53 - (dP - 53))).
    split; [lia|]. split; [lia|]. split; [|split].
    - unfold T. rewrite <- Z.pow_add_r by lia. f_equal. lia.
    - rewrite <- Z.pow_add_r by lia. f_equal. lia.
    - destruct HdP as [-> | ->]; [right | left]; done. }
  destruct K as (k & c & Hk & Ek & E2k & Ec & Hc).
  assert (Main : m1 / 2 ^ k = q).
  { symmetry. apply Z.div_unique with (m1 - q * 2 ^ k); [|lia].
    rewrite E2k. fold Y in HXY.
    assert (P2 : Z.pos P < 2 ^ (dP - 53) * (m1 + 1)).
    { pose proof (Z.mul_succ_div_gt (Z.pos P) (2 ^ (dP - 53))
                    ltac:(apply Z.pow_pos_nonneg; lia)).
      assert (0 < 2 ^ (dP - 53)) by (apply Z.pow_pos_nonneg; lia). nia. }
    replace (q * (T * c)) with (Y * c) by (unfold Y; ring).
    destruct HdP as [HP | HP]; rewrite HP in *;
      change (2 ^ (105 - 53)) with 4503599627370496 in *;
      change (2 ^ (106 - 53)) with 9007199254740992 in *;
      change (2 ^ 53) with 9007199254740992 in *;
      change (2 ^ 52) with 4503599627370496 in *;
      change (2 ^ (105 - 1)) with 20282409603651670423947251286016 in *;
      change (2 ^ (106 - 1)) with 40564819207303340847894502572032 in *;
      destruct Hc as [-> | ->]; destruct HT as [HT | HT]; lia. }
  unfold int_of_float, Float.to_int.
  destruct C as [(C1 & C2 & _) | (C1 & C2 & _)].
  - replace (0 <=? e2) with false by (symmetry; apply Z.leb_gt; lia).
    rewrite C1, C2, Ek. by rewrite Main.
  - replace (0 <=? e2) with false by (symmetry; apply Z.leb_gt; lia).
    f_equal. rewrite <- Main, <- C1.
    replace k with (Z.succ (- e2)) by lia. rewrite Z.pow_succ_r by lia.
    rewrite (Z.mul_comm (Z.pos m2) 2). symmetry. apply Z.div_mul_cancel_l; [|lia].
    apply Z.pow_nonzero; lia.
Qed.

(** The same up to the first size at which the product rounds up to the next
    integer. *)
Lemma new_size_of_exact n :
  0 < n < 1250999896491811 -> new_size_of n = Ret (9 * n / 10).
Proof.
  intros [Hn0 Hn].
  destruct (Z_le_gt_dec n 1250999896491804) as [H|H];
    [by apply new_size_of_exact_small|].
  assert (n = 1250999896491805 \/ n = 1250999896491806 \/ n = 1250999896491807 \/
          n = 1250999896491808 \/ n = 1250999896491809 \/ n = 1250999896491810)
    as [-> | [-> | [-> | [-> | [-> | ->]]]]] by lia;
    vm_compute; reflexivity.
Qed.

(** ** The sizes of the passes *)

Lemma length_encode_join chars : length (encode (join chars)) = length chars.
Proof.
  unfold encode, join, String.list_byte_of_string.
  by rewrite String.list_ascii_of_string_of_list_ascii, length_map.
Qed.

Lemma length_slice_to {A} (l : list A) n :
  0 <= n <= Z.of_nat (length l) -> Z.of_nat (length (slice_to l n)) = n.
Proof.
  intros H. unfold slice_to.
  replace (0 <=? n) with true by (symmetry; apply Z.leb_le; lia).
  rewrite length_take. lia.
Qed.

(** Step 1 up to the end of its [with] block, when no system call fails. *)
Lemma step1_stores_prefix p cb w d new_size :
  faults w = [] ->
  standard cb ->
  lookup_node p (root w) = Some (File d) ->
  new_size_of (Z.of_nat (length d)) = Ret new_size ->
  exists r w',
    step1 p cb d w = (r, w') /\
    faults w' = [] /\
    lookup_node p (root w') = Some (File (slice_to d new_size)).
Proof.
  intros Q C L N.
  destruct (set_file_is_Some p d (slice_to d new_size) _ L) as [r' S].
  eexists _, _. split; [by eapply step1_closed_file|].
  split; [done|]. simpl. by eapply lookup_set_file.
Qed.

(** Step 2, run on an existing file when no system call fails, stores
    [new_size] bytes. *)
Lemma step2_stores_new_size p cb w d new_size :
  faults w = [] ->
  standard cb ->
  lookup_node p (root w) = Some (File d) ->
  exists w' c,
    step2 p cb new_size w = (Ret tt, w') /\
    faults w' = [] /\
    lookup_node p (root w') = Some (File c) /\
    length c = Z.to_nat new_size.
Proof.
  intros Q C L. unfold step2.
  erewrite bind_Ret by (by apply notify_standard).
  erewrite bind_Ret by reflexivity.
  match goal with
  | |- context [write _ ?data] =>
      destruct (set_file_is_Some p d data (root w) L) as [r' S];
      exists (set_log (log w ++ [(INFO,
                "Step 2 complete: Replaced with random letters in " +:+ path_str p)])
                (set_objects (objects w ++ [FileObject p WB true])
                   (set_root r'
                      (set_rand_pos (rand_pos w + Z.to_nat new_size)
                         (set_events (events w ++ reported cb [step2_msg p]) w))))),
             data
  end.
  split.
  - erewrite bind_Ret by (by eapply with_open_write_sync_quiet). reflexivity.
  - split; [done|]. split; [simpl; by eapply lookup_set_file|].
    by rewrite length_encode_join, length_map, length_seq.
Qed.

(** C3 (as the code has it). For a file of [N] bytes with
    [0 < N < 1250999896491811], the size [int(N * 0.9)] computed in floating
    point is exactly the integer part of nine tenths of [N] (the bound is the
    first size at which it is not); after the write of step 1 the file holds
    exactly that many bytes; and the blocks of the steps 2 and 3, run on the
    file with that size, each store exactly that many bytes. *)
Theorem pass_sizes (d : bytes) :
  0 < Z.of_nat (length d) < 1250999896491811 ->
  let new_size := 9 * Z.of_nat (length d) / 10 in
  new_size_of (Z.of_nat (length d)) = Ret new_size /\
  (forall p cb w,
     faults w = [] -> standard cb ->
     lookup_node p (root w) = Some (File d) ->
     exists r w' c,
       step1 p cb d w = (r, w') /\
       lookup_node p (root w') = Some (File c) /\
       Z.of_nat (length c) = new_size) /\
  (forall p cb w c,
     faults w = [] -> standard cb ->
     lookup_node p (root w) = Some (File c) ->
     exists w' c',
       step2 p cb new_size w = (Ret tt, w') /\
       lookup_node p (root w') = Some (File c') /\
       Z.of_nat (length c') = new_size) /\
  (forall p cb w c,
     faults w = [] -> standard cb ->
     lookup_node p (root w) = Some (File c) ->
     exists w' c',
       step3 p cb new_size w = (Ret tt, w') /\
       lookup_node p (root w') = Some (File c') /\
       Z.of_nat (length c') = new_size).
Proof.
  intros HN new_size.
  assert (E : new_size_of (Z.of_nat (length d)) = Ret new_size)
    by by apply new_size_of_exact.
  assert (B : 0 <= new_size <= Z.of_nat (length d)).
  { unfold new_size. split.
    - apply Z.div_pos; lia.
    - apply Z.div_le_upper_bound; lia. }
  split; [done|]. split; [|split].
  - intros p cb w Q C L.
    destruct (step1_stores_prefix p cb w d new_size Q C L E) as (r & w' & S & _ & F).
    exists r, w', (slice_to d new_size). split; [done|]. split; [done|].
    by apply length_slice_to.
  - intros p cb w c Q C L.
    destruct (step2_stores_new_size p cb w c new_size Q C L) as (w' & c' & S & _ & F & Len).
    exists w', c'. split; [done|]. split; [done|]. lia.
  - intros p cb w c Q C L.
    destruct (step3_writes_hello_data p cb new_size w c Q C L) as (r' & _ & F & S).
    eexists _, _. split; [exact S|]. split; [exact F|].
    replace new_size with (Z.of_nat (Z.to_nat new_size)) at 1 2 by lia.
    rewrite hello_data_length. lia.
Qed.

Lemma pass_sizes_witness :
  new_size_of 10 = Ret 9 /\
  exists r w' c,
    step1 ["docs"; "a.txt"] (Some emit_progress) (encode "0123456789") sample_world
    = (r, w') /\
    lookup_node ["docs"; "a.txt"] (root w') = Some (File c) /\
    Z.of_nat (length c) = 9.
Proof.
  destruct (pass_sizes (encode "0123456789")) as (H1 & H2 & _).
  - split; reflexivity.
  - split; [exact H1|].
    apply (H2 ["docs"; "a.txt"] (Some emit_progress) sample_world).
    + reflexivity.
    + right; reflexivity.
    + reflexivity.
Defined.

(** C3 as stated fails without the bound on [N]: at the bound, a size just
    above [2^50 / 0.9], the floating-point product rounds up to the next
    integer. *)
Lemma new_size_of_overshoots :
  new_size_of 1250999896491811 = Ret 1125899906842630 /\
  9 * 1250999896491811 / 10 = 1125899906842629 /\
  new_size_of 1250999896491811 <> Ret (9 * 1250999896491811 / 10).
Proof.
  assert (E : new_size_of 1250999896491811 = Ret 1125899906842630)
    by (vm_compute; reflexivity).
  split; [exact E|]. split; [reflexivity|]. rewrite E. discriminate.
Qed.

(** * Further properties of the erase engine *)

(** ** What can happen to the tree, whatever system calls fail *)

Lemma open_rb_root p w r w' : open p RB w = (r, w') -> root w' = root w.
Proof.
  unfold open, mbind, M_bind, bind, get.
  destruct (syscall w) as [[[]|e] w1] eqn:S; apply syscall_root in S;
    [|by intros [= _ <-]].
  destruct (lookup_node p (root w1)) as [[|]|]; unfold new_object, raise;
    intros [= _ <-]; done.
Qed.

Lemma open_raise_root p md w e w' :
  open p md w = (Raise e, w') -> root w' = root w.
Proof.
  unfold open, mbind, M_bind, bind, get.
  destruct (syscall w) as [[[]|e1] w1] eqn:S; apply syscall_root in S;
    [|by intros [= _ <-]].
  rewrite S.
  destruct (lookup_node p (root w)) as [[|]|], md;
    try destruct (set_file p [] (root w)) as [r1|] eqn:F;
    unfold new_object, raise, modify; intros ?; by simplify_eq/=.
Qed.

Lemma open_wb_root p w f w' :
  open p WB w = (Ret f, w') -> set_file p [] (root w) = Some (root w').
Proof.
  unfold open, mbind, M_bind, bind, get.
  destruct (syscall w) as [[[]|e1] w1] eqn:S; apply syscall_root in S; [|done].
  rewrite S.
  destruct (lookup_node p (root w)) as [[|]|];
    try destruct (set_file p [] (root w)) as [r1|] eqn:F;
    unfold new_object, raise, modify; intros ?; by simplify_eq/=.
Qed.

Lemma read_root f w r w' : read f w = (r, w') -> root w' = root w.
Proof.
  unfold read, check_open, the_object, file_content, mbind, M_bind, bind, get.
  destruct (objects w !! f) as [[p [] []]|]; simpl; try by intros [= _ <-].
  destruct (syscall w) as [[[]|e] w1] eqn:S; apply syscall_root in S;
    [|by intros [= _ <-]].
  destruct (lookup_node p (root w1)) as [[|]|]; by intros [= _ <-].
Qed.

Lemma close_root f w r w' : close f w = (r, w') -> root w' = root w.
Proof.
  unfold close, the_object, mbind, M_bind, bind, modify.
  destruct (objects w !! f) as [[p md []]|]; simpl; try by intros [= _ <-].
  destruct (syscall _) as [[[]|e] w1] eqn:S; apply syscall_root in S;
    by intros [= _ <-].
Qed.

(** A write either fails and changes nothing, or appends to the file. *)
Lemma write_root f data w r w' o :
  objects w !! f = Some o ->
  write f data w = (r, w') ->
  root w' = root w \/
  exists d0, lookup_node (fo_path o) (root w) = Some (File d0) /\
             set_file (fo_path o) (d0 ++ data) (root w) = Some (root w').
Proof.
  intros O.
  unfold write, check_open, the_object, file_content, mbind, M_bind, bind, get, modify.
  rewrite O. destruct o as [p [] []]; simpl; try (intros [= _ <-]; by left).
  destruct (syscall w) as [[[]|e] w1] eqn:S; apply syscall_root in S;
    [|intros [= _ <-]; by left].
  rewrite S. destruct (lookup_node p (root w)) as [[d0|]|] eqn:L; simpl;
    try (intros [= _ <-]; by left).
  rewrite S.
  destruct (set_file p (d0 ++ data) (root w)) as [r'|] eqn:F; simpl;
    intros [= _ <-]; simpl; eauto.
Qed.

Lemma with_open_read_root p w r w' :
  with_open p RB read w = (r, w') -> root w' = root w.
Proof.
  unfold with_open. unfold mbind at 1. unfold M_bind, bind.
  destruct (open p RB w) as [[f|e] w1] eqn:O; apply open_rb_root in O;
    [|by intros [= _ <-]].
  destruct (read f w1) as [[y|e] w2] eqn:R; apply read_root in R;
    unfold mbind, M_bind, bind;
    destruct (close f w2) as [[[]|e'] w3] eqn:C; apply close_root in C;
    intros [= _ <-]; congruence.
Qed.

(** The [with] block of step 1, for a file that exists: the tree is left as it
    was, or with the file truncated, or with the file holding the data. *)
Lemma with_open_write_root p data w d r w' :
  lookup_node p (root w) = Some (File d) ->
  with_open p WB (fun f => write f data) w = (r, w') ->
  root w' = root w \/
  set_file p [] (root w) = Some (root w') \/
  set_file p data (root w) = Some (root w').
Proof.
  intros L. unfold with_open. unfold mbind at 1. unfold M_bind, bind.
  destruct (open p WB w) as [[f|e] w1] eqn:O.
  - destruct (open_objects _ _ _ _ _ O) as [-> Ob].
    apply open_wb_root in O.
    destruct (write _ data w1) as [rw w2] eqn:W.
    assert (W' := W). eapply write_root in W'; [|rewrite Ob; apply lookup_new_object].
    simpl in W'. intros H.
    assert (E : root w' = root w2).
    { revert H. destruct rw; unfold mbind, M_bind, bind;
        destruct (close _ w2) as [[[]|e'] w3] eqn:C; apply close_root in C;
        intros [= _ <-]; done. }
    rewrite E. destruct W' as [-> | (d0 & L0 & W')]; [by right; left|].
    rewrite (lookup_set_file _ _ _ _ _ L O) in L0. injection L0 as <-.
    simpl in W'. rewrite (set_file_twice _ _ _ _ _ _ L O) in W'. by right; right.
  - apply open_raise_root in O. intros [= _ <-]. by left.
Qed.

(** Step 1 always ends in an exception, and leaves the tree in one of three
    states. *)
Lemma step1_root p cb d d0 w r w' :
  standard cb ->
  lookup_node p (root w) = Some (File d0) ->
  step1 p cb d w = (r, w') ->
  (exists e, r = Raise e /\ is_Exception e = true) /\
  (root w' = root w \/
   set_file p [] (root w) = Some (root w') \/
   exists new_size,
     new_size_of (Z.of_nat (length d)) = Ret new_size /\
     set_file p (slice_to d new_size) (root w) = Some (root w')).
Proof.
  intros C L. unfold step1.
  erewrite bind_Ret by (by apply notify_standard).
  set (w1 := set_events _ w).
  unfold lift. destruct (new_size_of _) as [n|e] eqn:N.
  - erewrite bind_Ret by done.
    destruct (with_open p WB (fun f => write f (slice_to d n)) w1)
      as [[[f x]|e] w2] eqn:E2.
    + destruct (with_open_write_closed _ _ _ _ _ _ E2) as (o & O & Cl).
      erewrite bind_Ret by done. cbv beta iota.
      apply (with_open_write_root _ _ _ d0) in E2; [|done]. simpl in E2.
      erewrite bind_Raise by (by eapply flush_closed).
      intros [= <- <-]. split; [by eexists|].
      destruct E2 as [E2 | [E2 | E2]]; eauto.
    + destruct (tame_with_open p WB (fun f => write f (slice_to d n))
                  ltac:(intros; apply tame_write) w1)
        as (r1 & w3 & _ & E3 & _ & _ & _ & X).
      rewrite E2 in E3. injection E3 as <- <-.
      erewrite bind_Raise by done.
      apply (with_open_write_root _ _ _ d0) in E2; [|done]. simpl in E2.
      intros [= <- <-]. split; [by eexists|].
      destruct E2 as [E2 | [E2 | E2]]; eauto.
  - erewrite bind_Raise by done. intros [= <- <-].
    split; [eexists; split; [done|by eapply new_size_of_Exception]|]. by left.
Qed.

(** [erase_file] on an existing regular file, whatever system calls fail: the
    tree it leaves is the old one with the content of the file replaced by
    the whole of it, by nothing, or by its first [new_size] bytes. *)
Lemma erase_file_root p cb d w :
  standard cb ->
  lookup_node p (root w) = Some (File d) ->
  exists b w',
    erase_file p cb w = (Ret b, w') /\
    (root w' = root w \/
     set_file p [] (root w) = Some (root w') \/
     exists new_size,
       new_size_of (Z.of_nat (length d)) = Ret new_size /\
       set_file p (slice_to d new_size) (root w) = Some (root w')).
Proof.
  intros C L.
  destruct (erase_file_returns p cb w (tame_callback_standard _ C))
    as (b & w' & _ & E & _).
  exists b, w'. split; [done|].
  revert E. unfold erase_file, try_except.
  destruct (erase_file_body p cb w) as [rb w1] eqn:B.
  assert (R : root w1 = root w \/
              set_file p [] (root w) = Some (root w1) \/
              exists new_size,
                new_size_of (Z.of_nat (length d)) = Ret new_size /\
                set_file p (slice_to d new_size) (root w) = Some (root w1)).
  { revert B. unfold erase_file_body. unfold mbind at 1. unfold M_bind, bind.
    destruct (path_exists p w) as [[ex|e] w0] eqn:PE;
      [|apply path_exists_frame in PE as ->; intros [= _ <-]; by left].
    apply path_exists_ret in PE as [-> E0]. rewrite L. simpl.
    assert (R0 : root w0 = root w) by (by rewrite E0). clear E0.
    rewrite <- R0 in L |- *. clear R0 w. rename w0 into w.
    destruct (with_open p RB read w) as [[[f x]|e] w2] eqn:R.
    - assert (x = d) as -> by by eapply with_open_read_content.
      erewrite bind_Ret by done. cbv beta iota.
      apply with_open_read_root in R.
      destruct (Z.of_nat (length d) =? 0).
      + erewrite bind_Ret by reflexivity. intros [= _ <-]. by left.
      + destruct (step1 p cb d w2) as [r3 w3] eqn:S.
        destruct (step1_root _ _ _ d _ _ _ C ltac:(by rewrite R) S)
          as [(e & -> & _) S'].
        rewrite R in S'. erewrite bind_Raise by done. by intros [= _ <-].
    - erewrite bind_Raise by done. apply with_open_read_root in R.
      intros [= _ <-]. by left. }
  destruct rb as [b'|e]; [by intros [= _ <-]|].
  destruct (is_Exception e); by intros [= _ <-].
Qed.

Lemma assoc_replace_entry_ne c c' n es :
  String.eqb c' c = false -> assoc c' (replace_entry c n es) = assoc c' es.
Proof.
  intros Hne. induction es as [|[c0 n0] es IH]; simpl; [done|].
  destruct (String.eqb c c0) eqn:E; simpl; [|by rewrite IH].
  apply String.eqb_eq in E as <-. by rewrite Hne.
Qed.

(** Replacing the content of a file changes what no other path names. *)
Lemma set_file_other p :
  forall r r' d d' q,
  lookup_node p r = Some (File d) ->
  set_file p d' r = Some r' ->
  q <> p ->
  entry_at r' q = entry_at r q.
Proof.
  unfold entry_at.
  induction p as [|c p IH]; intros r r' d d' q L S Hq; simpl in *.
  - injection L as ->. injection S as <-. destruct q; [done|]. done.
  - destruct r as [|es]; [done|]. destruct (assoc c es) as [ch|] eqn:A; [|done].
    destruct (set_file p d' ch) as [ch'|] eqn:S'; [|done]. injection S as <-.
    destruct q as [|c' q]; [done|]. simpl.
    destruct (String.eqb c' c) eqn:E.
    + apply String.eqb_eq in E as ->.
      rewrite (assoc_replace_entry _ _ _ _ A), A.
      apply (IH ch ch' d d' q L S'). congruence.
    + by rewrite assoc_replace_entry_ne.
Qed.

(** [erase_file] on a directory: [exists] answers true, [open] fails, and the
    failure is the result. *)
Lemma erase_file_directory p cb es w :
  lookup_node p (root w) = Some (Dir es) ->
  exists e w1,
    erase_file_body p cb w = (Raise e, w1) /\
    (faults w = [] -> e = IsADirectoryError (path_str p)) /\
    erase_file p cb w
    = (Ret false,
       set_log (log w1 ++ [(ERROR, "Error erasing " +:+ path_str p +:+ ": "
                                     +:+ exn_str e)]) w1) /\
    root w1 = root w /\ objects w1 = objects w /\ events w1 = events w /\
    log w1 = log w.
Proof.
  intros L.
  assert (O : exists e w1,
             erase_file_body p cb w = (Raise e, w1) /\ is_Exception e = true /\
             (faults w = [] -> e = IsADirectoryError (path_str p)) /\
             root w1 = root w /\ objects w1 = objects w /\ events w1 = events w /\
             log w1 = log w).
  { unfold erase_file_body, path_exists, with_open, open, syscall,
      mbind, M_bind, bind, get.
    destruct w as [r o [|[] [|[] fl]] rn rp ev lg ir]; simpl in *; rewrite ?L;
      simpl; rewrite ?L;
      eexists _, _; (split; [reflexivity|]); repeat split; done. }
  destruct O as (e & w1 & O & X & F & R).
  exists e, w1. split; [done|]. split; [done|]. split; [|done].
  by apply erase_file_failure.
Qed.

(** What every call of [erase_file] with a standard callback guarantees,
    whatever system calls fail. *)
Lemma erase_file_summary p cb w :
  standard cb ->
  exists b w',
    erase_file p cb w = (Ret b, w') /\
    is_running w' = is_running w /\
    (b = true -> lookup_node p (root w) = Some (File [])) /\
    (forall q, q <> p -> entry_at (root w') q = entry_at (root w) q) /\
    (forall d, lookup_node p (root w) = Some (File d) ->
               exists k, lookup_node p (root w') = Some (File (take k d))).
Proof.
  intros C. pose proof (tame_callback_standard _ C) as T.
  destruct (erase_file_returns p cb w T) as (b & w' & _ & E & R & _).
  exists b, w'. split; [done|]. split; [done|].
  destruct (lookup_node p (root w)) as [[d|es]|] eqn:L.
  - destruct (erase_file_root p cb d w C L) as (b' & w'' & E' & Out).
    rewrite E in E'. injection E' as <- <-.
    split; [|split].
    + intros ->. destruct d as [|x d]; [done|].
      destruct (erase_file_never_succeeds p cb (x :: d) w T L) as [w'' E'']; [done|].
      rewrite E in E''. done.
    + intros q Hq. destruct Out as [-> | [S | (n & _ & S)]]; [done| |];
        by eapply set_file_other.
    + intros d' [= <-]. destruct Out as [-> | [S | (n & _ & S)]].
      * exists (length d). by rewrite firstn_all.
      * exists 0%nat. by eapply lookup_set_file.
      * unfold slice_to in S. destruct (0 <=? n); eexists; by eapply lookup_set_file.
  - destruct (erase_file_directory p cb es w L) as (e & w1 & _ & _ & E' & R1 & _).
    rewrite E in E'. injection E' as -> ->. simpl. rewrite R1.
    split; [done|]. split; [done|]. done.
  - rewrite (erase_file_missing p cb w L) in E.
    destruct (faults w) as [|[] fl]; injection E as <- <-; simpl;
      (split; [done|]); (split; [done|]); done.
Qed.

(** X1. [erase_file] reports success only for an existing, empty regular file,
    whatever system calls fail; and when none fails, it does report success
    for such a file. *)
Theorem erase_file_success_iff_empty p (cb : callback) w :
  standard cb ->
  (forall w', erase_file p cb w = (Ret true, w') ->
              lookup_node p (root w) = Some (File [])) /\
  (faults w = [] -> lookup_node p (root w) = Some (File []) ->
   exists w', erase_file p cb w = (Ret true, w')).
Proof.
  intros C. split.
  - intros w' E. destruct (erase_file_summary p cb w C) as (b & w'' & E' & _ & H & _).
    rewrite E in E'. injection E' as <- <-. by apply H.
  - intros Q L. eexists. by apply erase_file_empty.
Qed.

Lemma erase_file_success_iff_empty_witness :
  lookup_node ["empty"] (root (set_faults [false; false; false; false; true] sample_world))
  = Some (File []).
Proof.
  destruct (erase_file_success_iff_empty ["empty"] (Some emit_progress)
              (set_faults [false; false; false; false; true] sample_world)) as [H _].
  - right; reflexivity.
  - eapply H. reflexivity.
Defined.

(** X2. [erase_file] on a path that is a directory returns [False]: the file
    system, the file objects and the signals are left as they were, the
    callback is not called, and when no system call fails the error logged is
    that of [open], "Is a directory". *)
Theorem erase_file_on_directory p (cb : callback) es w :
  lookup_node p (root w) = Some (Dir es) ->
  exists w',
    erase_file p cb w = (Ret false, w') /\
    root w' = root w /\ objects w' = objects w /\ events w' = events w /\
    (faults w = [] ->
     log w' = log w ++ [(ERROR, "Error erasing " +:+ path_str p
                                  +:+ ": [Errno 21] Is a directory: '"
                                  +:+ path_str p +:+ "'")]).
Proof.
  intros L.
  destruct (erase_file_directory p cb es w L) as (e & w1 & _ & F & E & R & O & V & Lg).
  eexists. split; [exact E|]. simpl. split; [done|]. split; [done|]. split; [done|].
  intros Q. by rewrite (F Q), Lg.
Qed.

Lemma erase_file_on_directory_witness :
  exists w',
    erase_file ["docs"; "sub"] (Some emit_progress) sample_world = (Ret false, w') /\
    root w' = root sample_world /\ objects w' = objects sample_world /\
    events w' = events sample_world /\
    (faults sample_world = [] ->
     log w' = log sample_world
              ++ [(ERROR, "Error erasing /docs/sub: [Errno 21] Is a directory: '/docs/sub'")]).
Proof.
  eapply (erase_file_on_directory ["docs"; "sub"] (Some emit_progress)).
  reflexivity.
Defined.

Lemma shrunk_refl e : shrunk e e.
Proof.
  destruct e as [[d|]|]; simpl; [|done|done].
  exists (length d). by rewrite firstn_all.
Qed.

Lemma shrunk_trans e1 e2 e3 : shrunk e1 e2 -> shrunk e2 e3 -> shrunk e1 e3.
Proof.
  destruct e1 as [[d|]|]; simpl.
  - intros [k ->] [k' ->]. exists (k' `min` k)%nat. by rewrite take_take.
  - by intros ->.
  - by intros ->.
Qed.

(** [erase_file] never adds or removes a name, and it only ever cuts files
    short. *)
Lemma erase_file_shrinks p cb w :
  standard cb ->
  exists b w',
    erase_file p cb w = (Ret b, w') /\
    forall q, shrunk (entry_at (root w) q) (entry_at (root w') q).
Proof.
  intros C.
  destruct (erase_file_summary p cb w C) as (b & w' & E & _ & _ & F & P).
  exists b, w'. split; [done|]. intros q.
  destruct (decide (q = p)) as [->|Hq]; [|rewrite (F q Hq); apply shrunk_refl].
  destruct (lookup_node p (root w)) as [[d|es]|] eqn:L.
  - destruct (P d eq_refl) as [k Hk]. unfold entry_at. rewrite L, Hk. simpl. eauto.
  - destruct (erase_file_directory p cb es w L) as (e & w1 & _ & _ & E' & R1 & _).
    rewrite E in E'. injection E' as _ ->. simpl. rewrite R1. apply shrunk_refl.
  - rewrite (erase_file_missing p cb w L) in E.
    destruct (faults w) as [|[] fl]; injection E as _ <-; apply shrunk_refl.
Qed.

(** X3. Whatever [erase_file] is called on and whatever system calls fail, it
    adds and removes no name and puts no new byte anywhere: every path that
    named nothing or a directory still does, and every path that named a
    regular file names a regular file that holds its old content or a prefix
    of it. *)
Theorem erase_file_only_shrinks_files p q (cb : callback) w :
  standard cb ->
  exists b w',
    erase_file p cb w = (Ret b, w') /\
    shrunk (entry_at (root w) q) (entry_at (root w') q).
Proof.
  intros C. destruct (erase_file_shrinks p cb w C) as (b & w' & E & H).
  by exists b, w'.
Qed.

Lemma erase_file_only_shrinks_files_witness :
  let w := set_faults [false; false; false; false; false; true] sample_world in
  exists b w',
    erase_file ["docs"; "a.txt"] (Some emit_progress) w = (Ret b, w') /\
    shrunk (entry_at (root w) ["docs"; "a.txt"]) (entry_at (root w') ["docs"; "a.txt"]).
Proof.
  intros w.
  apply (erase_file_only_shrinks_files ["docs"; "a.txt"] ["docs"; "a.txt"]
           (Some emit_progress) w).
  right; reflexivity.
Defined.

(** X4. Whatever system calls fail, [erase_file] leaves an existing regular
    file a regular file whose content is a prefix of the original content
    (all of it, none of it, or its first [new_size] bytes): no byte of the
    file is ever overwritten with other data. *)
Theorem erase_file_leaves_a_prefix p (cb : callback) d w :
  standard cb ->
  lookup_node p (root w) = Some (File d) ->
  exists b w' k,
    erase_file p cb w = (Ret b, w') /\
    lookup_node p (root w') = Some (File (take k d)).
Proof.
  intros C L. destruct (erase_file_summary p cb w C) as (b & w' & E & _ & _ & _ & P).
  destruct (P d L) as [k Hk]. by exists b, w', k.
Qed.

Lemma erase_file_leaves_a_prefix_witness :
  exists b w' k,
    erase_file ["docs"; "a.txt"] (Some emit_progress)
      (set_faults [false; false; false; false; true] sample_world) = (Ret b, w') /\
    lookup_node ["docs"; "a.txt"] (root w') = Some (File (take k (encode "0123456789"))).
Proof.
  apply (erase_file_leaves_a_prefix ["docs"; "a.txt"] (Some emit_progress)
           (encode "0123456789")
           (set_faults [false; false; false; false; true] sample_world)).
  - right; reflexivity.
  - reflexivity.
Defined.

(** * Further properties of the batch coordinator *)

(** The loop of [run] when nobody calls [stop]: every file is processed. *)
Lemma run_loop_completes ui total files :
  (forall i, ui i = false) ->
  forall i sc fc w,
  is_running w = true ->
  exists oks w1,
    process_files total i files w = (Ret oks, w1) /\
    length oks = length files /\
    is_running w1 = true /\
    run_loop ui total i files sc fc w
    = (Ret (sc + successes oks, fc + failures oks)%nat, w1).
Proof.
  intros Hui. induction files as [|p rest IH]; intros i sc fc w R.
  - exists [], w. simpl. unfold successes, failures. simpl.
    by rewrite !Nat.add_0_r.
  - destruct (process_file_returns total i p w) as (ok & w1 & evs & E & R1 & _).
    assert (R1' : is_running w1 = true) by congruence.
    destruct (IH (S i) (if ok then (sc + 1)%nat else sc)
                (if ok then fc else (fc + 1)%nat) w1 R1')
      as (oks & w2 & E2 & L2 & R2 & Run).
    exists (ok :: oks), w2. simpl.
    erewrite bind_Ret by done. erewrite bind_Ret by done.
    split; [done|]. split; [by rewrite L2|]. split; [done|].
    erewrite bind_Ret by reflexivity. rewrite R. simpl.
    erewrite bind_Ret by done.
    erewrite bind_Ret by (unfold ui_thread; rewrite Hui; reflexivity).
    destruct ok; rewrite Run; [by rewrite counts_true | by rewrite counts_false].
Qed.

(** One started file, summed up: the outcome is a success only for an empty
    regular file, the flag is left alone, and no other path changes. *)
Lemma process_file_summary total i p w :
  exists ok w',
    process_file total i p w = (Ret ok, w') /\
    is_running w' = is_running w /\
    (ok = true -> lookup_node p (root w) = Some (File [])) /\
    (forall q, q <> p -> entry_at (root w') q = entry_at (root w) q).
Proof.
  unfold process_file.
  erewrite bind_Ret by reflexivity. erewrite bind_Ret by reflexivity.
  match goal with |- context [erase_file p _ ?w0] =>
    destruct (erase_file_summary p (Some emit_progress) w0 ltac:(by right))
      as (b & w' & E & R & H & F & _)
  end.
  exists b, w'. by rewrite E.
Qed.

(** The body of [erase_file] on a non-empty file when no system call fails:
    it raises in step 1, and no later system call is set to fail. *)
Lemma erase_file_body_quiet_nonempty p cb w d :
  faults w = [] ->
  standard cb ->
  lookup_node p (root w) = Some (File d) ->
  d <> [] ->
  exists e w1,
    erase_file_body p cb w = (Raise e, w1) /\
    is_Exception e = true /\ faults w1 = [].
Proof.
  intros Q C L D. unfold erase_file_body.
  erewrite bind_Ret by (by apply path_exists_quiet). rewrite L. simpl.
  erewrite bind_Ret by (by apply with_open_read_quiet). cbv beta iota.
  replace (Z.of_nat (length d) =? 0) with false
    by (destruct d; [done|]; symmetry; apply Z.eqb_neq; simpl; lia).
  destruct (new_size_of (Z.of_nat (length d))) as [n|e] eqn:N.
  - destruct (set_file_is_Some p d (slice_to d n) _ L) as [r' S].
    eexists _, _. split; [|split; [|shelve]].
    + eapply bind_Raise. by eapply step1_closed_file.
    + done.
    Unshelve. done.
  - eexists _, _. split; [|split; [|shelve]].
    + eapply bind_Raise. unfold step1.
      erewrite bind_Ret by (by apply notify_standard).
      eapply bind_Raise. unfold lift. by rewrite N.
    + by eapply new_size_of_Exception.
    Unshelve. done.
Qed.

(** [erase_file] when no system call fails: the outcome is decided by the file
    being empty, and no later system call fails either. *)
Lemma erase_file_quiet p cb w :
  faults w = [] ->
  standard cb ->
  exists w',
    erase_file p cb w = (Ret (is_empty_file (root w) p), w') /\
    faults w' = [].
Proof.
  intros Q C. unfold is_empty_file.
  destruct (lookup_node p (root w)) as [[[|x d]|es]|] eqn:L.
  - rewrite erase_file_empty by done. by eexists.
  - destruct (erase_file_body_quiet_nonempty p cb w (x :: d) Q C L ltac:(done))
      as (e & w1 & B & X & F).
    rewrite (erase_file_failure _ _ _ _ _ B X). by eexists.
  - assert (B : erase_file_body p cb w = (Raise (IsADirectoryError (path_str p)), w)).
    { unfold erase_file_body.
      erewrite bind_Ret by (by apply path_exists_quiet). rewrite L. simpl.
      eapply bind_Raise. unfold with_open. eapply bind_Raise. unfold open.
      erewrite bind_Ret by (by apply syscall_quiet).
      erewrite bind_Ret by reflexivity. by rewrite L. }
    rewrite (erase_file_failure _ _ _ _ _ B eq_refl). by eexists.
  - rewrite erase_file_missing, Q by done. by eexists.
Qed.

Lemma is_empty_file_shrunk r r' q :
  shrunk (entry_at r q) (entry_at r' q) ->
  (is_empty_file r q = true -> is_empty_file r' q = true) /\
  (file_at r q = false -> is_empty_file r' q = false).
Proof.
  unfold entry_at, is_empty_file, file_at.
  destruct (lookup_node q r) as [[[|x d]|es]|]; simpl.
  - intros [k H]. rewrite take_nil in H.
    destruct (lookup_node q r') as [[[|x' d']|es']|]; by simplify_eq.
  - done.
  - destruct (lookup_node q r') as [[[|x' d']|es']|]; by intros ?; simplify_eq.
  - destruct (lookup_node q r') as [[[|x' d']|es']|]; by intros ?; simplify_eq.
Qed.

(** One started file when no system call fails. *)
Lemma process_file_quiet total i p w :
  faults w = [] ->
  exists w',
    process_file total i p w = (Ret (is_empty_file (root w) p), w') /\
    faults w' = [] /\
    (forall q, shrunk (entry_at (root w) q) (entry_at (root w') q)).
Proof.
  intros Q. unfold process_file.
  erewrite bind_Ret by reflexivity. erewrite bind_Ret by reflexivity.
  match goal with |- context [erase_file p _ ?w0] =>
    destruct (erase_file_quiet p (Some emit_progress) w0 Q ltac:(by right))
      as (w' & E & Q');
    destruct (erase_file_shrinks p (Some emit_progress) w0 ltac:(by right))
      as (b & w'' & E' & F)
  end.
  rewrite E in E'. injection E' as _ <-. exists w'. by rewrite E.
Qed.

(** Some started files when no system call fails, compared with an earlier
    tree [r0] of which the present one keeps every name: what was an empty
    file then succeeds, what was no regular file then fails. *)
Lemma process_files_quiet total files r0 :
  forall i w,
  faults w = [] ->
  (forall q, shrunk (entry_at r0 q) (entry_at (root w) q)) ->
  exists oks w1,
    process_files total i files w = (Ret oks, w1) /\
    length oks = length files /\
    (length (List.filter (is_empty_file r0) files) <= successes oks)%nat /\
    (length (List.filter (fun p => negb (file_at r0 p)) files) <= failures oks)%nat.
Proof.
  induction files as [|p rest IH]; intros i w Q H; simpl.
  - eexists [], _. unfold successes, failures. by simpl.
  - destruct (process_file_quiet total i p w Q) as (w' & E & Q' & F).
    destruct (IH (S i) w' Q') as (oks & w1 & E1 & L1 & S1 & F1).
    { intros q. eapply shrunk_trans; [apply H | apply F]. }
    eexists (_ :: oks), w1. erewrite bind_Ret by done. erewrite bind_Ret by done.
    split; [done|]. split; [simpl; by rewrite L1|].
    destruct (is_empty_file_shrunk _ _ _ (H p)) as [He Hn].
    unfold successes, failures in *. simpl.
    destruct (is_empty_file r0 p) eqn:E0.
    + rewrite (He eq_refl). simpl.
      assert (file_at r0 p = true) as ->; [|simpl; lia].
      revert E0. unfold is_empty_file, file_at.
      by destruct (lookup_node p r0) as [[|]|].
    + destruct (file_at r0 p) eqn:F0; simpl.
      * destruct (is_empty_file (root w) p); simpl; lia.
      * rewrite (Hn eq_refl). simpl. lia.
Qed.

Lemma process_files_returns total files :
  forall i w,
  exists oks w1,
    process_files total i files w = (Ret oks, w1) /\ length oks = length files.
Proof.
  induction files as [|p rest IH]; intros i w; simpl; [by eexists [], _|].
  destruct (process_file_returns total i p w) as (ok & w' & evs & E & _).
  destruct (IH (S i) w') as (oks & w1 & E1 & L1).
  exists (ok :: oks), w1. erewrite bind_Ret by done. erewrite bind_Ret by done.
  split; [done|]. simpl. by rewrite L1.
Qed.

(** A non-empty file somewhere among the started files makes one of them
    fail, whatever system calls fail: the files before it either fail or
    leave it alone, and then its own turn fails. *)
Lemma process_files_reports_failure total files p d :
  d <> [] ->
  forall i w,
  In p files ->
  lookup_node p (root w) = Some (File d) ->
  exists oks w1,
    process_files total i files w = (Ret oks, w1) /\
    length oks = length files /\
    (1 <= failures oks)%nat.
Proof.
  intros D. induction files as [|a rest IH]; intros i w Hin L; [done|]. simpl.
  destruct (process_file_summary total i a w) as (ok & w' & E & _ & T & F).
  destruct ok.
  - assert (Hne : p <> a).
    { intros ->. rewrite (T eq_refl) in L. by injection L as <-. }
    destruct Hin as [->|Hin]; [done|].
    destruct (IH (S i) w' Hin) as (oks & w1 & E1 & L1 & F1).
    { specialize (F p Hne). unfold entry_at in F. rewrite L in F.
      destruct (lookup_node p (root w')) as [[d'|]|]; congruence. }
    exists (true :: oks), w1. erewrite bind_Ret by done. erewrite bind_Ret by done.
    split; [done|]. split; [simpl; by rewrite L1|]. done.
  - destruct (process_files_returns total rest (S i) w') as (oks & w1 & E1 & L1).
    exists (false :: oks), w1. erewrite bind_Ret by done. erewrite bind_Ret by done.
    split; [done|]. split; [simpl; by rewrite L1|].
    unfold failures. simpl. lia.
Qed.

(** X5. When nobody calls [stop], [run] processes every file of the list in
    order, emits no stop message and ends with [finished_signal] carrying one
    outcome per file: the two counts add up to the number of files. *)
Theorem run_without_stop files ui w :
  is_running w = true ->
  (forall i, ui i = false) ->
  exists oks w1,
    process_files (length files) 0 files w = (Ret oks, w1) /\
    length oks = length files /\
    (successes oks + failures oks = length files)%nat /\
    run files ui w
    = (Ret tt,
       set_events (events w1 ++ [Finished (successes oks) (failures oks)]) w1).
Proof.
  intros R Hui.
  destruct (run_loop_completes ui (length files) files Hui 0%nat 0%nat 0%nat w R)
    as (oks & w1 & E & L & _ & Run).
  exists oks, w1. split; [done|]. split; [done|].
  split; [by rewrite successes_failures|].
  unfold run. by erewrite bind_Ret by done.
Qed.

Lemma run_without_stop_witness :
  exists oks w1,
    process_files 2 0 [["docs"; "a.txt"]; ["empty"]] sample_world = (Ret oks, w1) /\
    length oks = 2%nat /\
    (successes oks + failures oks = 2)%nat /\
    run [["docs"; "a.txt"]; ["empty"]] (fun _ => false) sample_world
    = (Ret tt,
       set_events (events w1 ++ [Finished (successes oks) (failures oks)]) w1).
Proof.
  apply (run_without_stop [["docs"; "a.txt"]; ["empty"]] (fun _ => false) sample_world).
  - reflexivity.
  - reflexivity.
Defined.

(** X6. When no system call fails and nobody calls [stop], a run over any
    list of paths, repeated or not, counts as a success every path that named
    an empty regular file at the start, and as a failure every path that
    named no regular file at the start (a missing path or a directory): none
    of them changes during the run. *)
Theorem run_counts_at_least_the_empty_files files ui w :
  faults w = [] ->
  is_running w = true ->
  (forall i, ui i = false) ->
  exists s f w1,
    run files ui w
    = (Ret tt, set_events (events w1 ++ [Finished s f]) w1) /\
    (s + f = length files)%nat /\
    (length (List.filter (is_empty_file (root w)) files) <= s)%nat /\
    (length (List.filter (fun p => negb (file_at (root w) p)) files) <= f)%nat.
Proof.
  intros Q R Hui.
  destruct (run_loop_completes ui (length files) files Hui 0%nat 0%nat 0%nat w R)
    as (oks & w1 & E & L & _ & Run).
  destruct (process_files_quiet (length files) files (root w) 0%nat w Q
              ltac:(intros q; apply shrunk_refl))
    as (oks' & w1' & E' & _ & S & F).
  rewrite E in E'. injection E' as <- <-.
  exists (successes oks), (failures oks), w1.
  split; [unfold run; by erewrite bind_Ret by done|].
  split; [by rewrite successes_failures|]. done.
Qed.

Lemma run_counts_at_least_the_empty_files_witness :
  exists s f w1,
    run [["empty"]; ["docs"; "c.txt"]; ["docs"; "c.txt"]; ["ghost"]; ["empty"]]
      (fun _ => false) sample_world
    = (Ret tt, set_events (events w1 ++ [Finished s f]) w1) /\
    (s + f = 5)%nat /\ (2 <= s)%nat /\ (1 <= f)%nat.
Proof.
  apply (run_counts_at_least_the_empty_files
           [["empty"]; ["docs"; "c.txt"]; ["docs"; "c.txt"]; ["ghost"]; ["empty"]]
           (fun _ => false) sample_world).
  - reflexivity.
  - reflexivity.
  - reflexivity.
Defined.

(** X7. Whatever system calls fail, when nobody calls [stop] a run over any
    list that has a path naming a non-empty regular file reports at least one
    failure: with such a file in the batch, [finished_signal] never says that
    everything was erased. *)
Theorem run_reports_a_failure files ui w p d :
  is_running w = true ->
  (forall i, ui i = false) ->
  In p files ->
  lookup_node p (root w) = Some (File d) ->
  d <> [] ->
  exists s f w1,
    run files ui w
    = (Ret tt, set_events (events w1 ++ [Finished s f]) w1) /\
    (s + f = length files)%nat /\
    (1 <= f)%nat.
Proof.
  intros R Hui Hin L D.
  destruct (run_loop_completes ui (length files) files Hui 0%nat 0%nat 0%nat w R)
    as (oks & w1 & E & Ln & _ & Run).
  destruct (process_files_reports_failure (length files) files p d D 0%nat w Hin L)
    as (oks' & w1' & E' & _ & F).
  rewrite E in E'. injection E' as <- <-.
  exists (successes oks), (failures oks), w1.
  split; [unfold run; by erewrite bind_Ret by done|].
  split; [by rewrite successes_failures|]. done.
Qed.

Lemma run_reports_a_failure_witness :
  exists s f w1,
    run [["empty"]; ["docs"; "c.txt"]; ["docs"; "c.txt"]] (fun _ => false)
      (set_faults [false; true; false; false; false; false; true] sample_world)
    = (Ret tt, set_events (events w1 ++ [Finished s f]) w1) /\
    (s + f = 3)%nat /\ (1 <= f)%nat.
Proof.
  apply (run_reports_a_failure [["empty"]; ["docs"; "c.txt"]; ["docs"; "c.txt"]]
           (fun _ => false)
           (set_faults [false; true; false; false; false; false; true] sample_world)
           ["docs"; "c.txt"] (encode "c")).
  - reflexivity.
  - reflexivity.
  - right; left; reflexivity.
  - reflexivity.
  - discriminate.
Defined.

(** * Further properties of the passes *)

(** Every draw of [random.choices] is a member of the population. *)
Lemma random_choices_members population k w :
  population <> ""%string ->
  Forall (fun a => In a (String.list_ascii_of_string population))
    (match fst (random_choices population k w) with Ret chars => chars | Raise _ => [] end).
Proof.
  intros Hp. unfold random_choices. simpl.
  apply List.Forall_forall. intros a. rewrite in_map_iff. intros (i & <- & _).
  apply nth_In. apply Nat.mod_upper_bound.
  destruct population; [done|]. simpl. lia.
Qed.

(** One overwriting pass (message, [with] block, log record) on an existing
    file when no system call fails. *)
Lemma pass_quiet p cb msg data done_msg w d :
  faults w = [] ->
  standard cb ->
  lookup_node p (root w) = Some (File d) ->
  exists w',
    (notify cb msg ;;
     with_open p WB (fun f => write f data ;; flush f ;; fd ← fileno f; fsync fd) ;;
     logger INFO done_msg) w = (Ret tt, w') /\
    faults w' = [] /\
    lookup_node p (root w') = Some (File data) /\
    events w' = events w ++ reported cb [msg] /\
    log w' = log w ++ [(INFO, done_msg)] /\
    objects w' = objects w ++ [FileObject p WB true] /\
    rand w' = rand w /\ rand_pos w' = rand_pos w.
Proof.
  intros Q C L. destruct (set_file_is_Some p d data _ L) as [r' S].
  eexists. split.
  - erewrite bind_Ret by (by apply notify_standard).
    erewrite bind_Ret by (by eapply with_open_write_sync_quiet). reflexivity.
  - simpl. repeat split; try done. by eapply lookup_set_file.
Qed.

(** X8. The second pass, run on an existing file when no system call fails,
    stores exactly [new_size] bytes, each of them one of the 52 ASCII letters,
    whatever the random source yields, and consumes [new_size] draws. *)
Theorem step2_stores_letters p (cb : callback) (new_size : nat) w d :
  faults w = [] ->
  standard cb ->
  lookup_node p (root w) = Some (File d) ->
  exists w' c,
    step2 p cb (Z.of_nat new_size) w = (Ret tt, w') /\
    lookup_node p (root w') = Some (File c) /\
    length c = new_size /\
    Forall (fun b => In b (encode ascii_letters)) c /\
    rand_pos w' = (rand_pos w + new_size)%nat /\
    events w' = events w ++ reported cb [step2_msg p].
Proof.
  intros Q C L. unfold step2.
  erewrite bind_Ret by (by apply notify_standard).
  set (w0 := set_events _ w).
  pose proof (random_choices_members ascii_letters (Z.of_nat new_size) w0
                ltac:(done)) as M.
  destruct (random_choices ascii_letters (Z.of_nat new_size) w0) as [rc w1] eqn:R.
  assert (exists chars, rc = Ret chars /\ length chars = new_size /\
                        w1 = set_rand_pos (rand_pos w + new_size) w0)
    as (chars & -> & Len & ->).
  { revert R. unfold random_choices. intros [= <- <-]. eexists.
    split; [done|]. by rewrite length_map, length_seq, Nat2Z.id. }
  cbv beta iota delta [fst] in M. erewrite bind_Ret by done.
  destruct (set_file_is_Some p d (encode (join chars)) _ L) as [r' S].
  erewrite bind_Ret by (by eapply with_open_write_sync_quiet).
  eexists _, _. split; [reflexivity|].
  cbn [root rand_pos events set_log set_objects set_root set_rand_pos set_events w0].
  split; [by eapply lookup_set_file|]. split; [by rewrite length_encode_join|].
  split; [|done].
  unfold encode, join, String.list_byte_of_string.
  rewrite String.list_ascii_of_string_of_list_ascii.
  apply List.Forall_forall. intros b. rewrite in_map_iff. intros (a & <- & Ha).
  apply in_map. rewrite List.Forall_forall in M. by apply M.
Qed.

Lemma step2_stores_letters_witness :
  exists w' c,
    step2 ["docs"; "a.txt"] (Some emit_progress) 9 sample_world = (Ret tt, w') /\
    lookup_node ["docs"; "a.txt"] (root w') = Some (File c) /\
    length c = 9%nat /\
    Forall (fun b => In b (encode ascii_letters)) c /\
    rand_pos w' = (rand_pos sample_world + 9)%nat /\
    events w' = events sample_world
                ++ reported (Some emit_progress) [step2_msg ["docs"; "a.txt"]].
Proof.
  apply (step2_stores_letters ["docs"; "a.txt"] (Some emit_progress) 9 sample_world
           (encode "0123456789")).
  - reflexivity.
  - right; reflexivity.
  - reflexivity.
Defined.

(** X9. The passes 2, 3 and 4 run one after the other on an existing file,
    when no system call fails: the file ends up empty, the three step messages
    are emitted in order, three completion records are logged, and three file
    objects were opened for writing and closed. *)
Theorem steps_2_to_4_clear_the_file p (cb : callback) new_size w d :
  faults w = [] ->
  standard cb ->
  lookup_node p (root w) = Some (File d) ->
  exists w',
    (step2 p cb new_size ;; step3 p cb new_size ;; step4 p cb) w = (Ret tt, w') /\
    lookup_node p (root w') = Some (File []) /\
    events w' = events w ++ reported cb [step2_msg p; step3_msg p; step4_msg p] /\
    log w'
    = log w ++ [(INFO, "Step 2 complete: Replaced with random letters in "
                         +:+ path_str p);
                (INFO, "Step 3 complete: Overwrote with 'hello world' in "
                         +:+ path_str p);
                (INFO, "Step 4 complete: Cleared content of " +:+ path_str p)] /\
    objects w' = objects w ++ [FileObject p WB true; FileObject p WB true;
                               FileObject p WB true].
Proof.
  intros Q C L.
  assert (S2 : exists w2 c,
             step2 p cb new_size w = (Ret tt, w2) /\ faults w2 = [] /\
             lookup_node p (root w2) = Some (File c) /\
             events w2 = events w ++ reported cb [step2_msg p] /\
             log w2 = log w ++ [(INFO, "Step 2 complete: Replaced with random letters in "
                                         +:+ path_str p)] /\
             objects w2 = objects w ++ [FileObject p WB true]).
  { unfold step2. erewrite bind_Ret by (by apply notify_standard).
    erewrite bind_Ret by reflexivity.
    match goal with |- context [write _ ?data] =>
      destruct (set_file_is_Some p d data (root w) L) as [r' S] end.
    erewrite bind_Ret by (by eapply with_open_write_sync_quiet).
    eexists _, _. split; [reflexivity|]. simpl.
    split; [done|]. split; [by eapply lookup_set_file|]. done. }
  destruct S2 as (w2 & c & E2 & Q2 & L2 & V2 & G2 & O2).
  destruct (pass_quiet p cb (step3_msg p) (hello_data new_size)
              ("Step 3 complete: Overwrote with 'hello world' in " +:+ path_str p)
              w2 c Q2 C L2) as (w3 & E3 & Q3 & L3 & V3 & G3 & O3 & _).
  destruct (pass_quiet p cb (step4_msg p) []
              ("Step 4 complete: Cleared content of " +:+ path_str p)
              w3 _ Q3 C L3) as (w4 & E4 & Q4 & L4 & V4 & G4 & O4 & _).
  exists w4. erewrite bind_Ret by done. erewrite bind_Ret by exact E3.
  split; [exact E4|]. split; [done|].
  rewrite V4, V3, V2, G4, G3, G2, O4, O3, O2, <- !app_assoc.
  repeat split; try done. by destruct C as [-> | ->].
Qed.

Lemma steps_2_to_4_clear_the_file_witness :
  exists w',
    (step2 ["docs"; "a.txt"] (Some emit_progress) 9 ;;
     step3 ["docs"; "a.txt"] (Some emit_progress) 9 ;;
     step4 ["docs"; "a.txt"] (Some emit_progress)) sample_world = (Ret tt, w') /\
    lookup_node ["docs"; "a.txt"] (root w') = Some (File []).
Proof.
  destruct (steps_2_to_4_clear_the_file ["docs"; "a.txt"] (Some emit_progress) 9
              sample_world (encode "0123456789"))
    as (w' & E & L & _).
  - reflexivity.
  - right; reflexivity.
  - reflexivity.
  - by exists w'.
Defined.

(** * Further properties of the target resolver *)

(** X10. When none of its path tests and directory walks fails,
    [get_all_files] returns, for any list of targets, exactly the paths that
    name a regular file and are a target or lie below one: nothing else is
    listed, and no such file is left out. *)
Theorem get_all_files_lists_the_files paths w :
  faults w = [] ->
  exists l,
    get_all_files paths w = (Ret l, w) /\
    forall q, In q l
              <-> file_at (root w) q = true /\
                  exists p s, In p paths /\ q = p ++ s.
Proof.
  intros Q. eexists. split; [by apply get_all_files_eq|]. intros q.
  rewrite in_flat_map. split.
  - intros (p & Hp & Hq).
    destruct (lookup_node p (root w)) as [[d|es]|] eqn:L.
    + unfold contribution in Hq. rewrite L in Hq. destruct Hq as [<- | []].
      split; [unfold file_at; by rewrite L|].
      exists p, []. by rewrite app_nil_r.
    + apply (contribution_dir (root w) p es q L) in Hq as (s & d & _ & -> & Hd).
      split; [unfold file_at; by rewrite Hd|]. by exists p, s.
    + unfold contribution in Hq. by rewrite L in Hq.
  - intros (F & p & s & Hp & ->). exists p. split; [done|].
    unfold file_at in F. rewrite lookup_node_app in F.
    destruct (lookup_node p (root w)) as [[d|es]|] eqn:L; [| |done].
    + destruct s; [|done]. rewrite app_nil_r. unfold contribution. rewrite L. by left.
    + apply (contribution_dir (root w) p es _ L).
      destruct (lookup_node s (Dir es)) as [[d|]|] eqn:Ls; try done.
      exists s, d. split; [by intros ->|]. split; [done|].
      by rewrite lookup_node_app, L.
Qed.

Lemma get_all_files_lists_the_files_witness :
  exists l,
    get_all_files [["docs"; "sub"]; ["empty"]; ["ghost"]] sample_world
    = (Ret l, sample_world) /\
    forall q, In q l
              <-> file_at (root sample_world) q = true /\
                  exists p s, In p [["docs"; "sub"]; ["empty"]; ["ghost"]] /\
                              q = p ++ s.
Proof.
  apply (get_all_files_lists_the_files [["docs"; "sub"]; ["empty"]; ["ghost"]]
           sample_world).
  reflexivity.
Defined.

(** ** The configuration file *)

Lemma assoc_app_new c c' n es :
  assoc c es = None ->
  assoc c' (es ++ [(c, n)]) = if String.eqb c' c then Some n else assoc c' es.
Proof.
  intros H. induction es as [|[c0 n0] es IH]; simpl in *; [done|].
  destruct (String.eqb c c0) eqn:E; [done|].
  destruct (String.eqb c' c0) eqn:E'; [|auto].
  destruct (String.eqb c' c) eqn:E''; [|done].
  apply String.eqb_eq in E' as ->. apply String.eqb_eq in E'' as ->.
  by rewrite String.eqb_refl in E.
Qed.

(** After [set_file] the path names a regular file with the data, also when
    the file is new. *)
Lemma set_file_lookup p :
  forall r r' d', set_file p d' r = Some r' -> lookup_node p r' = Some (File d').
Proof.
  induction p as [|c p IH]; intros r r' d' S; simpl in *.
  - destruct r; [|done]. by injection S as <-.
  - destruct r as [|es]; [done|]. destruct (assoc c es) as [ch|] eqn:A.
    + destruct (set_file p d' ch) as [ch'|] eqn:S'; [|done]. injection S as <-.
      simpl. rewrite (assoc_replace_entry _ _ _ _ A). eauto.
    + destruct p; [|done]. injection S as <-. simpl.
      by rewrite (assoc_app_new _ _ _ _ A), String.eqb_refl.
Qed.

Lemma writable_set_file r p :
  writable r p ->
  (exists r1, set_file p [] r = Some r1) /\
  (forall es, lookup_node p r <> Some (Dir es)).
Proof.
  intros [[d L] | (dir & c & es & -> & L & A)].
  - split; [apply (set_file_is_Some _ _ _ _ L) | by rewrite L].
  - split.
    + revert r L. induction dir as [|c0 dir IH]; intros r L; simpl in *.
      * injection L as ->. rewrite A. by eexists.
      * destruct r as [|es0]; [done|]. destruct (assoc c0 es0) as [ch|]; [|done].
        destruct (IH _ L) as [r1 ->]. by eexists.
    + intros es'. rewrite lookup_node_app, L. simpl. by rewrite A.
Qed.

(** *** File operations are silent *)

Lemma silent_ret {A} (a : A) : silent (mret a).
Proof. by intros w r w' [= <- <-]. Qed.

Lemma silent_raise {A} e : is_Exception e = true -> silent (@raise A e).
Proof. by intros H w r w' [= <- <-]. Qed.

Lemma silent_get {A} (f : world -> A) : silent (get f).
Proof. by intros w r w' [= <- <-]. Qed.

Lemma silent_bind {A B} (m : M A) (k : A -> M B) :
  silent m -> (forall a, silent (k a)) -> silent (m ≫= k).
Proof.
  intros Hm Hk w r w'. unfold mbind, M_bind, bind.
  destruct (m w) as [[a|e] w1] eqn:E; destruct (Hm _ _ _ E) as (L1 & V1 & X1).
  - intros E2. destruct (Hk _ _ _ _ E2) as (L2 & V2 & X2).
    repeat split; [congruence | congruence | done].
  - by intros [= <- <-].
Qed.

Lemma silent_syscall : silent syscall.
Proof.
  intros w r w'. unfold syscall.
  destruct (faults w) as [|[] fl]; by intros [= <- <-].
Qed.

Lemma silent_set_root r : silent (modify (set_root r)).
Proof. by intros w r0 w' [= <- <-]. Qed.

Lemma silent_set_objects (f : world -> list file_object) :
  silent (modify (fun w => set_objects (f w) w)).
Proof. by intros w r0 w' [= <- <-]. Qed.

Lemma silent_new_object p md : silent (new_object p md).
Proof. by intros w r0 w' [= <- <-]. Qed.

Lemma silent_the_object f : silent (the_object f).
Proof.
  intros w r w'. unfold the_object.
  destruct (objects w !! f); by intros [= <- <-].
Qed.

Create HintDb silent.
#[local] Hint Resolve silent_ret silent_raise silent_get silent_syscall
  silent_set_root silent_set_objects silent_new_object silent_the_object : silent.

Ltac silent :=
  repeat first
    [ solve [auto with silent]
    | lazymatch goal with
      | |- silent (mbind _ _) => apply silent_bind; [|intros]
      | |- silent (match ?x with _ => _ end) => destruct x
      end ].

Lemma silent_check_open f msg : silent (check_open f msg).
Proof. unfold check_open. silent. Qed.
#[local] Hint Resolve silent_check_open : silent.

Lemma silent_open p md : silent (open p md).
Proof. unfold open. silent. Qed.

Lemma silent_read f : silent (read f).
Proof. unfold read, file_content. silent. Qed.

Lemma silent_write f data : silent (write f data).
Proof. unfold write, file_content. silent. Qed.

Lemma silent_close f : silent (close f).
Proof. unfold close. silent. Qed.
#[local] Hint Resolve silent_open silent_read silent_write silent_close : silent.

Lemma silent_with_open {A} p md (body : nat -> M A) :
  (forall f, silent (body f)) -> silent (with_open p md body).
Proof.
  intros H. unfold with_open. apply silent_bind; [silent|]. intros f w r w'.
  destruct (body f w) as [[a|e] w1] eqn:E; destruct (H _ _ _ _ E) as (L1 & V1 & X1).
  - intros E2.
    assert (S : silent (close f ;; mret (f, a))) by silent.
    destruct (S _ _ _ E2) as (L2 & V2 & X2).
    repeat split; [congruence | congruence | done].
  - intros E2.
    assert (S : silent (close f ;; @raise (nat * A) e)) by silent.
    destruct (S _ _ _ E2) as (L2 & V2 & X2).
    repeat split; [congruence | congruence | done].
Qed.

(** A [with] block that reads leaves the tree alone when its body does. *)
Lemma with_open_rb_root {A} p (body : nat -> M A) w r w' :
  (forall f w r w', body f w = (r, w') -> root w' = root w) ->
  with_open p RB body w = (r, w') -> root w' = root w.
Proof.
  intros H. unfold with_open. unfold mbind at 1. unfold M_bind, bind.
  destruct (open p RB w) as [[f|e] w1] eqn:O; apply open_rb_root in O;
    [|by intros [= _ <-]].
  destruct (body f w1) as [[y|e] w2] eqn:R; apply H in R;
    unfold mbind, M_bind, bind;
    destruct (close f w2) as [[[]|e'] w3] eqn:C; apply close_root in C;
    intros [= _ <-]; congruence.
Qed.

Lemma write_ret_root f data w n w' o :
  objects w !! f = Some o ->
  write f data w = (Ret n, w') ->
  exists d0, lookup_node (fo_path o) (root w) = Some (File d0) /\
             set_file (fo_path o) (d0 ++ data) (root w) = Some (root w').
Proof.
  intros O.
  unfold write, check_open, the_object, file_content, mbind, M_bind, bind, get, modify.
  rewrite O. destruct o as [p [] []]; simpl; try done.
  destruct (syscall w) as [[[]|e] w1] eqn:S; apply syscall_root in S; [|done].
  rewrite S. destruct (lookup_node p (root w)) as [[d0|]|] eqn:L; simpl; try done.
  rewrite S.
  destruct (set_file p (d0 ++ data) (root w)) as [r'|] eqn:F; simpl;
    intros [= _ <-]; simpl; eauto.
Qed.

(** A write that raises has stored nothing. *)
Lemma write_raise_root f data w e w' :
  write f data w = (Raise e, w') -> root w' = root w.
Proof.
  unfold write, check_open, the_object, file_content, mbind, M_bind, bind, get, modify.
  destruct (objects w !! f) as [[p [] []]|]; simpl; try by intros [= _ <-].
  destruct (syscall w) as [[[]|e1] w1] eqn:S; apply syscall_root in S;
    [|by intros [= _ <-]].
  destruct (lookup_node p (root w1)) as [[d0|]|]; simpl; try by intros [= _ <-].
  by destruct (set_file p (d0 ++ data) (root w1)); simpl; intros [= _ <-].
Qed.

Lemma encode_app s1 s2 : encode (s1 ++ s2) = encode s1 ++ encode s2.
Proof.
  unfold encode, String.list_byte_of_string.
  induction s1 as [|a s1 IH]; simpl; [done|]. by rewrite IH.
Qed.

(** The bytes of the joined text are the bytes of the chunks, in order. *)
Lemma encode_concat chunks :
  encode (String.concat "" chunks) = concat (map encode chunks).
Proof.
  induction chunks as [|c rest IH]; [done|].
  replace (String.concat "" (c :: rest)) with (c +:+ String.concat "" rest).
  - by rewrite encode_app, IH.
  - destruct rest; [|done]. clear IH. simpl.
    induction c as [|a c IHc]; [done|].
    change (String a (c +:+ "") = String a c). by rewrite IHc.
Qed.

Lemma concat_take_prefix {A} (ls : list (list A)) j :
  exists k, concat (take j ls) = take k (concat ls).
Proof.
  exists (length (concat (take j ls))).
  assert (E : concat ls = concat (take j ls) ++ concat (drop j ls))
    by (by rewrite <- concat_app, take_drop).
  rewrite E. by rewrite take_app_length.
Qed.

(** Writing chunks one after the other, whatever fails: the file holds what
    it held, followed by the first [j] chunks; all of them when the loop is
    left normally. *)
Lemma write_chunks_tree f o chunks :
  forall w r w' d0,
  objects w !! f = Some o ->
  lookup_node (fo_path o) (root w) = Some (File d0) ->
  write_chunks f chunks w = (r, w') ->
  exists j,
    lookup_node (fo_path o) (root w')
    = Some (File (d0 ++ concat (map encode (take j chunks)))) /\
    match r with
    | Ret _ => take j chunks = chunks
    | Raise _ => True
    end.
Proof.
  induction chunks as [|c rest IH]; intros w r w' d0 O L; simpl.
  - intros [= <- <-]. exists 0%nat. simpl. by rewrite app_nil_r.
  - unfold mbind, M_bind, bind.
    destruct (write f (encode c) w) as [[n|e] w1] eqn:W.
    + assert (O1 : objects w1 !! f = Some o)
        by (by rewrite (write_objects _ _ _ _ _ W)).
      destruct (write_ret_root _ _ _ _ _ _ O W) as (d0' & L0 & F).
      rewrite L in L0. injection L0 as <-.
      apply set_file_lookup in F. intros E.
      destruct (IH _ _ _ _ O1 F E) as (j & Lj & Rj).
      exists (S j). simpl. rewrite app_assoc. split; [done|].
      destruct r; [by rewrite Rj | done].
    + apply write_raise_root in W. intros [= <- <-].
      exists 0%nat. simpl. by rewrite app_nil_r, W.
Qed.

Lemma write_chunks_objects f chunks :
  forall w r w', write_chunks f chunks w = (r, w') -> objects w' = objects w.
Proof.
  induction chunks as [|c rest IH]; intros w r w'; simpl.
  - by intros [= _ <-].
  - unfold mbind, M_bind, bind.
    destruct (write f (encode c) w) as [[n|e] w1] eqn:W;
      apply write_objects in W; [|by intros [= _ <-]].
    intros E. apply IH in E. congruence.
Qed.

Lemma silent_write_chunks f chunks : silent (write_chunks f chunks).
Proof. induction chunks as [|c rest IH]; simpl; silent. Qed.
#[local] Hint Resolve silent_write_chunks : silent.

(** The [with] block of [save_config], whatever fails: the file is what it
    was, or it holds a prefix of the chunks, all of them when the block is
    left normally. *)
Lemma with_open_write_chunks_tree p chunks w r w' :
  with_open p WB (fun f => write_chunks f chunks) w = (r, w') ->
  (entry_at (root w') p = entry_at (root w) p \/
   exists j, lookup_node p (root w')
             = Some (File (concat (map encode (take j chunks))))) /\
  (forall x, r = Ret x ->
             lookup_node p (root w') = Some (File (concat (map encode chunks)))).
Proof.
  unfold with_open. unfold mbind at 1. unfold M_bind, bind.
  destruct (open p WB w) as [[f|e] w1] eqn:O.
  - destruct (open_objects _ _ _ _ _ O) as [-> Ob].
    apply open_wb_root in O.
    assert (L1 := set_file_lookup _ _ _ _ O).
    assert (Of : objects w1 !! length (objects w) = Some (FileObject p WB false))
      by (rewrite Ob; apply lookup_new_object).
    destruct (write_chunks _ chunks w1) as [rw w2] eqn:W.
    destruct (write_chunks_tree _ _ _ _ _ _ _ Of L1 W) as (j & Lj & Rj).
    simpl in Lj.
    destruct rw as [[]|e]; unfold mbind, M_bind, bind;
      destruct (close _ w2) as [[[]|e'] w3] eqn:C; apply close_root in C;
      intros [= <- <-]; rewrite C; (split; [right; by exists j|]); try done.
    intros x _. by rewrite Lj, Rj.
  - apply open_raise_root in O. intros [= <- <-]. rewrite O.
    split; [by left | done].
Qed.

(** Writing chunks when no system call fails. *)
Lemma write_chunks_quiet f p chunks :
  forall w d0,
  faults w = [] ->
  objects w !! f = Some (FileObject p WB false) ->
  lookup_node p (root w) = Some (File d0) ->
  exists r',
    lookup_node p r' = Some (File (d0 ++ concat (map encode chunks))) /\
    write_chunks f chunks w = (Ret tt, set_root r' w).
Proof.
  induction chunks as [|c rest IH]; intros w d0 Q O L; simpl.
  - exists (root w). rewrite app_nil_r. split; [done|]. by destruct w.
  - destruct (set_file_is_Some p d0 (d0 ++ encode c) _ L) as [r1 S1].
    erewrite bind_Ret by (by eapply write_quiet).
    destruct (IH (set_root r1 w) (d0 ++ encode c) Q O) as (r' & L' & E).
    { simpl. by eapply lookup_set_file. }
    exists r'. rewrite app_assoc. split; [done|]. by rewrite E.
Qed.

Section ConfigProperties.

Variable CONFIG_FILE : path.
Variable decode : bytes -> string + string.
Variable json_loads : string -> json + string.
Variable json_iterencode : json -> list string.

Lemma silent_json_load f : silent (json_load decode json_loads f).
Proof. unfold json_load. silent. Qed.

Lemma json_load_root f w r w' :
  json_load decode json_loads f w = (r, w') -> root w' = root w.
Proof.
  unfold json_load, mbind, M_bind, bind.
  destruct (read f w) as [[d|e] w1] eqn:R; apply read_root in R;
    [|by intros [= _ <-]].
  destruct (decode d) as [text|msg]; [destruct (json_loads text)|];
    by intros [= _ <-].
Qed.

(** X11. [load_config] tests the place of the configuration file outside its
    [try]: when that test fails, its [OSError] is raised to the caller. In
    every other case [load_config] returns a value, whatever is at that place
    and whichever later system calls fail; it leaves the tree alone and emits
    nothing; it logs nothing, or it logs one error and then returns the
    default configuration. *)
Theorem load_config_raises_only_from_exists w :
  (forall fl,
     faults w = true :: fl ->
     load_config CONFIG_FILE decode json_loads w = (Raise OSError, set_faults fl w)) /\
  ((forall fl, faults w <> true :: fl) ->
   exists v w',
     load_config CONFIG_FILE decode json_loads w = (Ret v, w') /\
     root w' = root w /\ events w' = events w /\
     (log w' = log w \/
      v = DEFAULT_CONFIG /\
      exists msg, log w' = log w ++ [(ERROR, "Error loading config: " +:+ msg)])).
Proof.
  split.
  - intros fl F. unfold load_config, path_exists, syscall, mbind, M_bind, bind.
    by rewrite F.
  - intros N. unfold load_config. unfold mbind at 1. unfold M_bind, bind.
    destruct (path_exists CONFIG_FILE w) as [[ex|e] w0] eqn:PE.
    2: { exfalso. revert PE. unfold path_exists, syscall, mbind, M_bind, bind, get.
         destruct (faults w) as [|[] fl] eqn:F; try done. by destruct (N fl). }
    apply path_exists_ret in PE as [-> E0].
    assert (R0 : root w0 = root w) by (by rewrite E0).
    assert (V0 : events w0 = events w) by (by rewrite E0).
    assert (L0 : log w0 = log w) by (by rewrite E0).
    clear E0. rewrite <- R0, <- V0, <- L0. clear R0 V0 L0.
    unfold try_except, mbind, M_bind, bind.
    destruct (lookup_node CONFIG_FILE (root w0)); [|by eexists _, _; eauto].
    destruct (with_open CONFIG_FILE RB _ w0) as [[[f v]|e] w1] eqn:E.
    + destruct (silent_with_open _ _ _ silent_json_load _ _ _ E) as (L & V & _).
      apply with_open_rb_root in E; [|apply json_load_root].
      eexists _, _. split; [reflexivity|]. auto.
    + destruct (silent_with_open _ _ _ silent_json_load _ _ _ E) as (L & V & X).
      apply with_open_rb_root in E; [|apply json_load_root].
      rewrite X. simpl. eexists _, _. split; [reflexivity|]. simpl.
      repeat split; [done | done |]. right. split; [done|]. rewrite L. eauto.
Qed.

(** A load with no failing system call, of a file that decodes and parses. *)
Lemma load_config_quiet w d text v :
  faults w = [] ->
  lookup_node CONFIG_FILE (root w) = Some (File d) ->
  decode d = inl text ->
  json_loads text = inl v ->
  load_config CONFIG_FILE decode json_loads w
  = (Ret v, set_objects (objects w ++ [FileObject CONFIG_FILE RB true]) w).
Proof.
  intros Q L D P.
  unfold load_config. erewrite bind_Ret by (by apply path_exists_quiet).
  unfold try_except, mbind, M_bind, bind.
  rewrite L. unfold with_open.
  erewrite bind_Ret by (by eapply open_rb_quiet).
  unfold json_load.
  erewrite bind_Ret; [| eapply read_quiet; [done | apply lookup_new_object | done] ].
  rewrite D, P. unfold ret.
  erewrite bind_Ret by (by apply close_quiet, lookup_new_object).
  unfold mret, M_ret, ret. simpl. by rewrite insert_new_object.
Qed.

(** X12. When no system call fails and the configuration file holds bytes
    that decode and parse, [load_config] returns the parsed value; it logs
    nothing and leaves one closed file object behind. *)
Theorem load_config_parses w d text v :
  faults w = [] ->
  lookup_node CONFIG_FILE (root w) = Some (File d) ->
  decode d = inl text ->
  json_loads text = inl v ->
  load_config CONFIG_FILE decode json_loads w
  = (Ret v, set_objects (objects w ++ [FileObject CONFIG_FILE RB true]) w).
Proof. intros Q L D P. by eapply load_config_quiet. Qed.

(** X13. When no system call fails and the content of the configuration file
    does not decode or does not parse, [load_config] returns the default
    configuration and logs the message of the error. *)
Theorem load_config_falls_back w d msg :
  faults w = [] ->
  lookup_node CONFIG_FILE (root w) = Some (File d) ->
  match decode d with inl text => json_loads text | inr m => inr m end = inr msg ->
  load_config CONFIG_FILE decode json_loads w
  = (Ret DEFAULT_CONFIG,
     set_log (log w ++ [(ERROR, "Error loading config: " +:+ msg)])
       (set_objects (objects w ++ [FileObject CONFIG_FILE RB true]) w)).
Proof.
  intros Q L D.
  unfold load_config. erewrite bind_Ret by (by apply path_exists_quiet).
  unfold try_except, mbind, M_bind, bind.
  rewrite L. unfold with_open.
  erewrite bind_Ret by (by eapply open_rb_quiet).
  unfold json_load.
  erewrite bind_Ret; [| eapply read_quiet; [done | apply lookup_new_object | done] ].
  assert (E : match decode d with
              | inl text => match json_loads text with
                            | inl v => ret v
                            | inr m => raise (ValueError m)
                            end
              | inr m => raise (ValueError m)
              end = (raise (ValueError msg) : M json)).
  { destruct (decode d) as [text|m]; [destruct (json_loads text)|]; congruence. }
  rewrite E. unfold raise.
  erewrite bind_Ret by (by apply close_quiet, lookup_new_object).
  simpl. by rewrite insert_new_object.
Qed.

(** X14. [save_config] always returns, whichever system calls fail, and emits
    nothing. It logs one record: the success, and then the file holds the
    whole printed configuration; or an error, and then the place of the file
    is as it was, or the file holds a prefix of the printed configuration,
    which may be empty or partial. *)
Theorem save_config_never_raises config w :
  exists w',
    save_config CONFIG_FILE json_iterencode config w = (Ret tt, w') /\
    events w' = events w /\
    (log w' = log w ++ [(INFO, "Config saved successfully")] /\
     lookup_node CONFIG_FILE (root w')
     = Some (File (encode (json_dumps json_iterencode config)))
     \/
     (exists msg, log w' = log w ++ [(ERROR, "Error saving config: " +:+ msg)]) /\
     (entry_at (root w') CONFIG_FILE = entry_at (root w) CONFIG_FILE \/
      exists k,
        lookup_node CONFIG_FILE (root w')
        = Some (File (take k (encode (json_dumps json_iterencode config)))))).
Proof.
  unfold save_config, try_except, mbind, M_bind, bind, json_dumps.
  rewrite encode_concat.
  assert (S : silent (with_open CONFIG_FILE WB (json_dump json_iterencode config)))
    by (apply silent_with_open; intros f; apply silent_write_chunks).
  destruct (with_open CONFIG_FILE WB _ w) as [[x|e] w1] eqn:E;
    destruct (S _ _ _ E) as (L & V & X);
    destruct (with_open_write_chunks_tree _ _ _ _ _ E) as (T & C).
  - eexists. split; [reflexivity|]. simpl. split; [done|].
    left. rewrite L. eauto.
  - rewrite X. eexists. split; [reflexivity|]. simpl. split; [done|].
    right. rewrite L. split; [eauto|].
    destruct T as [T | [j T]]; [by left|]. right.
    destruct (concat_take_prefix (map encode (json_iterencode config)) j) as [k K].
    exists k. by rewrite T, <- K, firstn_map.
Qed.

(** A save with no failing system call, to a place that can be written. *)
Lemma save_config_quiet config w :
  faults w = [] ->
  writable (root w) CONFIG_FILE ->
  exists r',
    lookup_node CONFIG_FILE r'
    = Some (File (encode (json_dumps json_iterencode config))) /\
    save_config CONFIG_FILE json_iterencode config w
    = (Ret tt,
       set_log (log w ++ [(INFO, "Config saved successfully")])
         (set_objects (objects w ++ [FileObject CONFIG_FILE WB true])
            (set_root r' w))).
Proof.
  intros Q Wr. destruct (writable_set_file _ _ Wr) as [[r1 S1] ND].
  assert (L1 := set_file_lookup _ _ _ _ S1).
  assert (O : open CONFIG_FILE WB w
              = (Ret (length (objects w)),
                 set_objects (objects w ++ [FileObject CONFIG_FILE WB false])
                   (set_root r1 w))).
  { unfold open. erewrite bind_Ret by (by apply syscall_quiet).
    erewrite bind_Ret by reflexivity.
    destruct (lookup_node CONFIG_FILE (root w)) as [[d|es]|] eqn:L;
      [| by destruct (ND es) |]; rewrite S1;
      by erewrite bind_Ret by reflexivity. }
  destruct (write_chunks_quiet (length (objects w)) CONFIG_FILE
              (json_iterencode config)
              (set_objects (objects w ++ [FileObject CONFIG_FILE WB false])
                 (set_root r1 w))
              [] Q (lookup_new_object _ _) L1)
    as (r' & L' & W).
  exists r'. split; [unfold json_dumps; by rewrite encode_concat|].
  unfold save_config, try_except. unfold mbind at 1. unfold M_bind, bind.
  unfold with_open. erewrite bind_Ret by exact O.
  unfold json_dump. rewrite W.
  erewrite bind_Ret by (by apply close_quiet, lookup_new_object).
  unfold mret, M_ret, ret. simpl. by rewrite insert_new_object.
Qed.

(** X15. Saving and loading again gives the configuration back, when no
    system call fails, the place can be written, and the parser and the
    decoder undo the printer and the encoder on this configuration. The file
    is created when it was missing, and only the success is logged. *)
Theorem save_then_load config w :
  faults w = [] ->
  writable (root w) CONFIG_FILE ->
  decode (encode (json_dumps json_iterencode config))
  = inl (json_dumps json_iterencode config) ->
  json_loads (json_dumps json_iterencode config) = inl config ->
  exists w',
    (save_config CONFIG_FILE json_iterencode config ;;
     load_config CONFIG_FILE decode json_loads) w = (Ret config, w') /\
    lookup_node CONFIG_FILE (root w')
    = Some (File (encode (json_dumps json_iterencode config))) /\
    log w' = log w ++ [(INFO, "Config saved successfully")] /\
    objects w' = objects w ++ [FileObject CONFIG_FILE WB true;
                               FileObject CONFIG_FILE RB true].
Proof.
  intros Q Wr D P.
  destruct (save_config_quiet config w Q Wr) as (r' & L & S).
  erewrite bind_Ret by exact S.
  erewrite load_config_quiet; [| done | exact L | exact D | exact P ].
  eexists. split; [reflexivity|]. simpl.
  repeat split; [done|]. by rewrite <- app_assoc.
Qed.

End ConfigProperties.

Lemma load_config_raises_only_from_exists_witness :
  let w := set_faults [false; true]
             (set_root (Dir [("config.json", File (encode "{}"))]) sample_world) in
  exists v w',
    load_config ["config.json"] sample_decode sample_loads w = (Ret v, w') /\
    root w' = root w /\ events w' = events w /\
    (log w' = log w \/
     v = DEFAULT_CONFIG /\
     exists msg, log w' = log w ++ [(ERROR, "Error loading config: " +:+ msg)]).
Proof.
  intros w.
  apply (load_config_raises_only_from_exists ["config.json"] sample_decode
           sample_loads w).
  intros fl. discriminate.
Defined.

Lemma load_config_parses_witness :
  let w := set_root (Dir [("config.json", File (encode "{}"))]) sample_world in
  load_config ["config.json"] sample_decode sample_loads w
  = (Ret (JObject []),
     set_objects (objects w ++ [FileObject ["config.json"] RB true]) w).
Proof.
  intros w.
  apply (load_config_parses ["config.json"] sample_decode sample_loads w
           (encode "{}") "{}" (JObject []));
    reflexivity.
Defined.

Lemma load_config_falls_back_witness :
  let w := set_root (Dir [("config.json", File (encode "{"))]) sample_world in
  load_config ["config.json"] sample_decode sample_loads w
  = (Ret DEFAULT_CONFIG,
     set_log (log w ++ [(ERROR, "Error loading config: "
                                +:+ "Expecting value: line 1 column 1 (char 0)")])
       (set_objects (objects w ++ [FileObject ["config.json"] RB true]) w)).
Proof.
  intros w.
  apply (load_config_falls_back ["config.json"] sample_decode sample_loads w
           (encode "{"));
    reflexivity.
Defined.

Lemma save_then_load_witness :
  exists w',
    (save_config ["config.json"] sample_iterencode (JObject []) ;;
     load_config ["config.json"] sample_decode sample_loads) sample_world
    = (Ret (JObject []), w') /\
    lookup_node ["config.json"] (root w')
    = Some (File (encode (json_dumps sample_iterencode (JObject [])))) /\
    log w' = log sample_world ++ [(INFO, "Config saved successfully")] /\
    objects w' = objects sample_world ++ [FileObject ["config.json"] WB true;
                                          FileObject ["config.json"] RB true].
Proof.
  apply (save_then_load ["config.json"] sample_decode sample_loads sample_iterencode
           (JObject []) sample_world).
  - reflexivity.
  - right. exists [], "config.json",
      [("docs", Dir [("a.txt", File (encode "0123456789"));
                     ("b.txt", File (encode "xy"));
                     ("c.txt", File (encode "c"));
                     ("sub", Dir [("d.txt", File (encode "d"));
                                  ("e.txt", File [])])]);
       ("empty", File [])].
    repeat split.
  - reflexivity.
  - reflexivity.
Defined.
